(** * Record handlers and push routing of skygear-server

    A shallow embedding of [pkg/server/handler/record.go] (the save,
    fetch, query and delete handlers with the atomic mutation
    coordinator) and of [push/push.go] (the routing sender), followed by
    the properties of the specification that these functions decide.

    Conventions of the embedding.
    - Go values passed by pointer and mutated in place (the
      [RecordModifyResponse], the [router.Response]) are threaded
      explicitly: a function takes the old value and returns the new one.
    - The storage engine and every other external collaborator act on an
      abstract world [W]; an operation that may change it has type
      [W -> result * W], a read-only lookup has type [W -> result].
    - A Go [panic] is the [Panic] outcome.
    - Logging is not modelled. *)

From Stdlib Require Import Ascii.
From stdpp Require Import gmap strings list fin_maps.

Set Default Proof Using "Type".
Set Warnings "-register-all".
Open Scope string_scope.

(** Outcome of a Go function that may panic. *)
Inductive Outcome (A : Type) : Type :=
| Done (a : A)
| Panic (msg : string).
Arguments Done {A} a.
Arguments Panic {A} msg.

(* ===================================================================== *)
(** ** Package skyerr *)
(* ===================================================================== *)

Module skyerr.

(** Modelled from the spec: the error codes of package skyerr, which is
    not part of the sources at hand.  Section 7 of the specification
    lists the taxonomy; [UnexpectedError] is the catch-all code. *)
Inductive ErrorCode : Type :=
| PermissionDenied
| BadRequest
| InvalidArgument
| NotSupported
| IncompatibleSchema
| AtomicOperationFailure
| UnexpectedError.

(** Modelled from the spec: [skyerr.Error], declared outside the sources
    at hand.  Sections 6 and 7: an error carries a machine-readable
    code, a message and an optional structured info.  The info is a
    [map[string]interface{}]; [InfoValue] gives the dynamic values that
    record.go stores in such a map; [error] is Go's [error] interface,
    inhabited by plain errors and by skyerr errors. *)
Inductive Error : Type :=
| MkError (code : ErrorCode) (message : string)
    (info : option (gmap string InfoValue))
with InfoValue : Type :=
| InfoString (s : string)
| InfoStrings (ss : list string)
| InfoErrors (es : list Error)
| InfoError (e : error)
with error : Type :=
| errors_New (msg : string)
| error_sky (e : Error).

(** Modelled from the spec: the accessors and the constructors of
    package skyerr, with the arguments record.go passes them. *)
Definition Code (e : Error) : ErrorCode :=
  match e with MkError c _ _ => c end.

Definition Message (e : Error) : string :=
  match e with MkError _ m _ => m end.

Definition Info (e : Error) : option (gmap string InfoValue) :=
  match e with MkError _ _ i => i end.

Definition NewError (code : ErrorCode) (message : string) : Error :=
  MkError code message None.

Definition NewErrorWithInfo (code : ErrorCode) (message : string)
    (info : gmap string InfoValue) : Error :=
  MkError code message (Some info).

Definition NewInvalidArgument (message : string) (arguments : list string)
    : Error :=
  NewErrorWithInfo InvalidArgument message
    {[ "arguments" := InfoStrings arguments ]}.

(** Conversion of an optional skyerr error to Go's [error] interface:
    a nil [skyerr.Error] converts to a nil [error]. *)
Definition as_error (e : option Error) : option error :=
  error_sky <$> e.

(** [error.Error()]: the text of an error. *)
Definition error_text (e : error) : string :=
  match e with
  | errors_New msg => msg
  | error_sky e => Message e
  end.

End skyerr.

(* ===================================================================== *)
(** ** Package skydb *)
(* ===================================================================== *)

Module skydb.
Import skyerr.

(** Modelled from the spec: [skydb.RecordID] (section 3), with the
    fields record.go reads; the Go field [Type] is spelled [Type_]. *)
Record RecordID : Type := mkRecordID { Type_ : string; Key : string }.

#[global] Instance RecordID_eq_dec : EqDecision RecordID.
Proof. solve_decision. Defined.

#[global] Instance RecordID_countable : Countable RecordID.
Proof.
  refine (inj_countable' (fun r => (Type_ r, Key r))
            (fun p => mkRecordID p.1 p.2) _).
  by intros [].
Defined.

(** Modelled from the spec: typed field values of a record (section 3:
    scalar, reference-to-record, asset-reference, sequence).  Geo-points
    carry floating-point coordinates and are left out. *)
Inductive Value : Type :=
| VString (s : string)
| VInteger (z : Z)
| VBoolean (b : bool)
| VReference (target : RecordID)
| VAsset (name : string)
| VSequence (vs : list Value).

(** Modelled from the spec: [skydb.Record] (section 3), its identifier
    and its ordered field data. *)
Record Record_ : Type := mkRecord {
  ID : RecordID;
  Data : list (string * Value)
}.

(** Modelled from the spec: [skydb.AccessControlOptions] (section 3),
    with the fields record.go sets. *)
Record AccessControlOptions (AuthInfo : Type) : Type := {
  ViewAsUser : AuthInfo;
  BypassAccessControl : bool
}.
Arguments ViewAsUser {AuthInfo} _.
Arguments BypassAccessControl {AuthInfo} _.

(** Modelled from the spec: the predicate tree of a query (section 3):
    comparison of a field path with a literal, logical combinator over
    children, function expression over a field path and arguments.  A
    field path is given resolved: the record type it ends in and the
    field name.  An operand that is a sub-query is a query of its own
    and is not part of the tree. *)
Inductive Predicate : Type :=
| Comparison (recordType field : string) (op : string) (operand : Value)
| Combinator (op : string) (children : list Predicate)
| FunctionExpr (recordType field : string) (name : string)
    (args : list Value).

(** Modelled from the spec: [skydb.Query] (section 3), reduced to the
    record type, the predicate and the eager load paths. *)
Record Query : Type := {
  QType : string;
  QPredicate : Predicate;
  QEagerLoadPaths : list string
}.

(** Modelled from the spec: [skydb.Transactional], the transaction
    capability of a database (section 6: begin, commit, rollback). *)
Record Transactional (W : Type) : Type := {
  Begin : W -> option error * W;
  Commit : W -> option error * W;
  Rollback : W -> option error * W
}.
Arguments Begin {W} _ _.
Arguments Commit {W} _ _.
Arguments Rollback {W} _ _.

(** Modelled from the spec: [skydb.WithTransaction] is not part of the
    sources at hand.  Section 4.3: the items execute inside one
    transaction; if the inner function produces an error, or the
    transaction itself fails, the whole transaction is rolled back.
    [A] is the state captured by the closure [do] (the response that the
    inner function fills in); it survives a rollback, being in memory. *)
Definition WithTransaction {W A : Type} (tx : Transactional W)
    (do : A -> W -> option error * A * W) (a : A) (w : W)
    : option error * A * W :=
  match Begin tx w with
  | (Some e, w1) => (Some e, a, w1)
  | (None, w1) =>
    match do a w1 with
    | (Some e, a', w2) => (Some e, a', (Rollback tx w2).2)
    | (None, a', w2) =>
      match Commit tx w2 with
      | (Some e, w3) => (Some e, a', (Rollback tx w3).2)
      | (None, w3) => (None, a', w3)
      end
    end
  end.

(** Modelled from the spec: [skydb.Rows], the cursor a query returns,
    as record.go consumes it: the records that [Scan] yields, then the
    value of [Err]. *)
Record Rows : Type := {
  Scanned : list Record_;
  RowsErr : option error
}.

(** Modelled from the spec: [skydb.Conn], with the one method record.go
    calls. *)
Record Conn (W FieldACL : Type) : Type := {
  GetRecordFieldAccess : W -> error + FieldACL
}.
Arguments GetRecordFieldAccess {W FieldACL} _ _.

(** Modelled from the spec: [skydb.Database], with the methods
    record.go calls.  [AsTransactional] is the outcome of the type
    assertion [db.(skydb.Transactional)]. *)
Record Database (W AuthInfo : Type) : Type := {
  IsReadOnly : bool;
  AsTransactional : option (Transactional W);
  DbQuery : Query -> AccessControlOptions AuthInfo -> W ->
            (error + Rows) * W
}.
Arguments IsReadOnly {W AuthInfo} _.
Arguments AsTransactional {W AuthInfo} _.
Arguments DbQuery {W AuthInfo} _ _ _ _.

(** Modelled from the spec: a storage engine with transactions, which
    the handlers consume only through [Transactional].  Sections 4.3 and
    7: a rolled back transaction leaves zero partial effects visible.
    The state of the engine is the current content [current] and, while
    a transaction is open, the content [snapshot] at its begin.
    [beginFault] and [commitFault] are the failures of the engine
    itself (transport, storage). *)
Record TxState (S : Type) : Type := mkTxState {
  current : S;
  snapshot : option S
}.
Arguments mkTxState {S} _ _.
Arguments current {S} _.
Arguments snapshot {S} _.

(** Modelled from the spec: begin of a transaction; it takes the
    snapshot. *)
Definition snapshotBegin {S : Type} (beginFault : S -> option error)
    (w : TxState S) : option error * TxState S :=
  match snapshot w with
  | Some _ => (Some (errors_New "skydb: a transaction has already begun"), w)
  | None =>
    match beginFault (current w) with
    | Some e => (Some e, w)
    | None => (None, mkTxState (current w) (Some (current w)))
    end
  end.

(** Modelled from the spec: rollback; it restores the snapshot. *)
Definition snapshotRollback {S : Type} (w : TxState S)
    : option error * TxState S :=
  match snapshot w with
  | None => (Some (errors_New "skydb: a transaction has not begun"), w)
  | Some s0 => (None, mkTxState s0 None)
  end.

(** Modelled from the spec: commit; it drops the snapshot. *)
Definition snapshotCommit {S : Type} (commitFault : S -> option error)
    (w : TxState S) : option error * TxState S :=
  match snapshot w with
  | None => (Some (errors_New "skydb: a transaction has not begun"), w)
  | Some _ =>
    match commitFault (current w) with
    | Some e => (Some e, w)
    | None => (None, mkTxState (current w) None)
    end
  end.

(** Modelled from the spec: the transaction capability of the engine. *)
Definition snapshotTx {S : Type} (beginFault commitFault : S -> option error)
    : Transactional (TxState S) :=
  {| Begin := snapshotBegin beginFault;
     Commit := snapshotCommit commitFault;
     Rollback := snapshotRollback |}.

(** Modelled from the spec: an operation on the content of the engine,
    run on the engine: it sees and changes the current content only. *)
Definition onCurrent {S A : Type} (f : S -> A * S) (w : TxState S)
    : A * TxState S :=
  let '(a, s) := f (current w) in (a, mkTxState s (snapshot w)).

End skydb.

(* ===================================================================== *)
(** ** Package recordutil *)
(* ===================================================================== *)

Module recordutil.
Import skyerr skydb.

Section Modify.
Context {W AuthInfo FieldACL : Type}.

(** Modelled from the spec: [recordutil.RecordModifyRequest] (section
    3), with the fields record.go sets.  The asset store, the hook
    registry, the context and the modification time are handles that
    only the inner functions use; they are left out. *)
Record RecordModifyRequest : Type := {
  Db : Database W AuthInfo;
  ReqConn : Conn W FieldACL;
  ReqAuthInfo : AuthInfo;
  RecordsToSave : list Record_;
  RecordIDsToDelete : list RecordID;
  Atomic : bool;
  WithMasterKey : bool
}.

(** Modelled from the spec: [recordutil.RecordModifyResponse] (section
    3): the map from record id to error and the list of saved records,
    the two fields record.go reads. *)
Record RecordModifyResponse : Type := mkResponse {
  ErrMap : gmap RecordID Error;
  SavedRecords : list Record_
}.

(** Modelled from the spec: a failing item is recorded in the error
    map. *)
Definition recordError (id : RecordID) (e : Error)
    (resp : RecordModifyResponse) : RecordModifyResponse :=
  mkResponse (<[id := e]> (ErrMap resp)) (SavedRecords resp).

(** Modelled from the spec: a saved item is appended to the
    saved-records list. *)
Definition recordSaved (r : Record_) (resp : RecordModifyResponse)
    : RecordModifyResponse :=
  mkResponse (ErrMap resp) (SavedRecords resp ++ [r]).

(** Modelled from the spec: the per-item loop of the inner save
    function.  Section 4.3 and section 5: items are applied in input
    order; a failing item is recorded in the error map and does not
    block its siblings; the saved-records list keeps the successful
    items in input order.  [saveItem] is the mutation of one record. *)
Fixpoint saveItems (saveItem : Record_ -> W -> (Error + Record_) * W)
    (records : list Record_) (resp : RecordModifyResponse) (w : W)
    : RecordModifyResponse * W :=
  match records with
  | [] => (resp, w)
  | record :: rest =>
    match saveItem record w with
    | (inl err, w') => saveItems saveItem rest (recordError (ID record) err resp) w'
    | (inr saved, w') => saveItems saveItem rest (recordSaved saved resp) w'
    end
  end.

(** Modelled from the spec: [recordutil.RecordSaveHandler] is not part of
    the sources at hand.  It runs the per-item loop; in an atomic batch
    an item error makes the whole function fail, so that the enclosing
    transaction is rolled back (section 4.3). *)
Definition RecordSaveHandler
    (saveItem : RecordModifyRequest -> Record_ -> W -> (Error + Record_) * W)
    (req : RecordModifyRequest) (resp : RecordModifyResponse) (w : W)
    : option Error * RecordModifyResponse * W :=
  let '(resp', w') := saveItems (saveItem req) (RecordsToSave req) resp w in
  if Atomic req && bool_decide (ErrMap resp' ≠ ∅)
  then (Some (NewError UnexpectedError "atomic operation failed"), resp', w')
  else (None, resp', w').

(** Modelled from the spec: the per-item loop of the inner delete
    function, as [saveItems]. *)
Fixpoint deleteItems (deleteItem : RecordID -> W -> option Error * W)
    (ids : list RecordID) (resp : RecordModifyResponse) (w : W)
    : RecordModifyResponse * W :=
  match ids with
  | [] => (resp, w)
  | id :: rest =>
    match deleteItem id w with
    | (Some err, w') => deleteItems deleteItem rest (recordError id err resp) w'
    | (None, w') => deleteItems deleteItem rest resp w'
    end
  end.

(** Modelled from the spec: [recordutil.RecordDeleteHandler] is not part
    of the sources at hand; as [RecordSaveHandler]. *)
Definition RecordDeleteHandler
    (deleteItem : RecordModifyRequest -> RecordID -> W -> option Error * W)
    (req : RecordModifyRequest) (resp : RecordModifyResponse) (w : W)
    : option Error * RecordModifyResponse * W :=
  let '(resp', w') :=
    deleteItems (deleteItem req) (RecordIDsToDelete req) resp w in
  if Atomic req && bool_decide (ErrMap resp' ≠ ∅)
  then (Some (NewError UnexpectedError "atomic operation failed"), resp', w')
  else (None, resp', w').

End Modify.

Arguments RecordModifyRequest : clear implicits.

(** *** Schema evolution guard *)

(** Modelled from the spec: declared field types (section 4.5). *)
Inductive FieldType : Type :=
| TString
| TInteger
| TBoolean
| TReference (targetType : string)
| TAsset
| TSequence.

#[global] Instance FieldType_eq_dec : EqDecision FieldType.
Proof. solve_decision. Defined.

(** Modelled from the spec: the type inferred for an incoming value. *)
Definition inferType (v : Value) : FieldType :=
  match v with
  | VString _ => TString
  | VInteger _ => TInteger
  | VBoolean _ => TBoolean
  | VReference target => TReference (Type_ target)
  | VAsset _ => TAsset
  | VSequence _ => TSequence
  end.

(** Modelled from the spec: the stored schema, from (record type, field
    name) to declared type. *)
Abbreviation Schema := (gmap (string * string) FieldType).

(** Modelled from the spec: extension of the schema by the fields of one
    record (section 4.5): an unseen field is added with its inferred
    type, a declared field must have the inferred type; the result is
    the extended schema or the name of the first conflicting field. *)
Fixpoint extendFields (recordType : string) (fields : list (string * Value))
    (schema : Schema) : string + Schema :=
  match fields with
  | [] => inr schema
  | (field, v) :: rest =>
    match schema !! (recordType, field) with
    | Some declared =>
      if decide (declared = inferType v)
      then extendFields recordType rest schema
      else inl field
    | None =>
      extendFields recordType rest (<[(recordType, field) := inferType v]> schema)
    end
  end.

(** Modelled from the spec: extension of the schema by the records of a
    batch, in input order. *)
Fixpoint extendRecords (records : list Record_) (schema : Schema)
    : string + Schema :=
  match records with
  | [] => inr schema
  | record :: rest =>
    match extendFields (Type_ (ID record)) (Data record) schema with
    | inl field => inl field
    | inr schema' => extendRecords rest schema'
    end
  end.

(** Modelled from the spec: [recordutil.ExtendRecordSchema] is not part
    of the sources at hand.  Section 4.5: the batch either extends the
    stored schema additively, or is rejected as a whole with an
    IncompatibleSchema error naming the field, the stored schema staying
    as it was.  [getSchema] and [setSchema] read and write the schema in
    the store; the boolean tells whether the schema changed. *)
Definition ExtendRecordSchema {W : Type} (getSchema : W -> Schema)
    (setSchema : Schema -> W -> W) (records : list Record_) (w : W)
    : (bool * option error) * W :=
  match extendRecords records (getSchema w) with
  | inl field =>
    ((false,
      Some (error_sky (NewError IncompatibleSchema
                         ("conflicting schema for field " ++ field)))),
     w)
  | inr schema' =>
    if decide (schema' = getSchema w)
    then ((false, None), w)
    else ((true, None), setSchema schema' w)
  end.

(** Modelled from the spec: the query predicate ACL visitor (section
    4.2).  [visit] walks the tree depth first and stops at the first
    field that is not readable; [readable recordType field] is the
    verdict of the access control evaluator of section 4.1. *)
Fixpoint visit (readable : string -> string -> bool) (p : Predicate)
    : option (string * string) :=
  match p with
  | Comparison recordType field _ _ =>
    if readable recordType field then None else Some (recordType, field)
  | Combinator _ children =>
    (fix visitAll (ps : list Predicate) : option (string * string) :=
       match ps with
       | [] => None
       | child :: rest =>
         match visit readable child with
         | Some denied => Some denied
         | None => visitAll rest
         end
       end) children
  | FunctionExpr recordType field _ _ =>
    if readable recordType field then None else Some (recordType, field)
  end.

End recordutil.

(* ===================================================================== *)
(** ** Package handler: record.go *)
(* ===================================================================== *)

Module handler.
Import skyerr skydb recordutil.

(** [strings.SplitN(s, "/", 2)]: the string itself when it holds no
    slash, else the parts before and after the first slash. *)
Fixpoint SplitN (s : string) : list string :=
  match s with
  | EmptyString => [EmptyString]
  | String c rest =>
    if Ascii.eqb c "/"%char then [EmptyString; rest]
    else
      match SplitN rest with
      | first :: others => String c first :: others
      | [] => []
      end
  end.

Definition dquote : string := String (Ascii.ascii_of_nat 34) EmptyString.

(** [recordDeleteRecordPayload]; the Go field [Type] is spelled
    [PType]. *)
Record recordDeleteRecordPayload : Type := {
  PType : string;
  PKey : string
}.

Definition recordDeleteRecordPayload_RecordID (p : recordDeleteRecordPayload)
    : RecordID :=
  {| Type_ := PType p; Key := PKey p |}.

Section Handlers.
Context {W AuthInfo FieldACL JSONMap JSON Filter : Type}.

(** [recordModifyFunc]. *)
Definition recordModifyFunc : Type :=
  RecordModifyRequest W AuthInfo FieldACL -> RecordModifyResponse -> W ->
  option Error * RecordModifyResponse * W.

(** The functions of other packages that record.go calls and that are
    not part of the sources at hand, taken as parameters.  [JSONMap] is
    [map[string]interface{}] as it arrives, [JSON] the serialized form
    of a record, [Filter] a [recordutil.RecordResultFilter]. *)
Record Externals : Type := {
  (** [mapstructure.Decode] into the tagged fields of each payload
      struct; [None] when it fails. *)
  DecodeSave : JSONMap -> option (bool * list JSONMap);
  DecodeFetch : JSONMap -> option (list string);
  DecodeDelete : JSONMap ->
    option (list string * list recordDeleteRecordPayload * bool);
  (** [skyconv.JSONRecord.FromMap]: the record or the error text. *)
  FromMap : JSONMap -> string + Record_;
  SanitizeForInput : Record_ -> Record_;
  RecordID_String : RecordID -> string;
  MakeError : error -> Error;
  (** [QueryParser.queryFromRaw], given the parser's user id. *)
  queryFromRaw : string -> JSONMap -> Error + Query;
  (** [FieldACL.Accessible] at read level: the evaluator of section 4.1,
      given the table, the record type, the field and the principal. *)
  Accessible : FieldACL -> string -> string -> AuthInfo -> bool;
  sendSchemaChangedEvent :
    (W -> option error * W) -> Database W AuthInfo -> W -> option error * W;
  NewRecordResultFilter :
    Conn W FieldACL -> AuthInfo -> bool -> W -> error + Filter;
  JSONResult : Filter -> Record_ -> JSON;
  recordutil_RecordSaveHandler : recordModifyFunc;
  recordutil_RecordDeleteHandler : recordModifyFunc;
  recordutil_ExtendRecordSchema :
    Database W AuthInfo -> list Record_ -> W -> (bool * option error) * W;
  (** [RecordFetcher.FetchRecord] at read level. *)
  FetchRecord :
    Database W AuthInfo -> Conn W FieldACL -> bool -> RecordID -> AuthInfo ->
    W -> (Error + Record_) * W;
  MakeAssetsComplete :
    Database W AuthInfo -> Conn W FieldACL -> list Record_ -> W ->
    list Record_;
  EagerIDs :
    Database W AuthInfo -> list Record_ -> Query ->
    gmap string (list RecordID);
  DoQueryEager :
    Database W AuthInfo -> gmap string (list RecordID) ->
    AccessControlOptions AuthInfo -> W ->
    gmap string (gmap string Record_) * W;
  QueryResultFilter_JSONResult :
    Database W AuthInfo -> Query -> gmap string (gmap string Record_) ->
    Filter -> Record_ -> JSON;
  QueryResultInfo :
    Database W AuthInfo -> Query -> AccessControlOptions AuthInfo -> Rows ->
    W -> (error + gmap string InfoValue) * W
}.

(** [router.Payload], as far as the handlers read it. *)
Record Payload : Type := {
  PData : JSONMap;
  PDatabase : Database W AuthInfo;
  DBConn : Conn W FieldACL;
  PAuthInfo : AuthInfo;
  AuthInfoID : string;
  HasMasterKey : bool
}.

(** [serializedError]. *)
Record serializedError : Type := newSerializedError {
  id : string;
  err : Error
}.

(** The elements of a result array: a serialized error, a filtered
    record, or the anonymous struct that answers a deletion. *)
Inductive ResultItem : Type :=
| ItemError (e : serializedError)
| ItemRecord (j : JSON)
| ItemDeleted (ID : RecordID) (RecordKey RecordType Type_ : string).

(** [router.Response]. *)
Record Response : Type := mkRouterResponse {
  Result : option (list ResultItem);
  Err : option Error;
  RInfo : option (gmap string InfoValue)
}.

Definition setErr (e : Error) (r : Response) : Response :=
  mkRouterResponse (Result r) (Some e) (RInfo r).

Definition setResult (l : list ResultItem) (r : Response) : Response :=
  mkRouterResponse (Some l) (Err r) (RInfo r).

Definition setInfo (i : gmap string InfoValue) (r : Response) : Response :=
  mkRouterResponse (Result r) (Err r) (Some i).

Variable E : Externals.

(** *** Save *)

(** The elements of [IncomingItems], a [[]interface{}]: a
    de-serialization error, a record id, or a value of another type. *)
Inductive IncomingItem : Type :=
| IncomingError (e : Error)
| IncomingID (id : RecordID)
| IncomingOther (typeName : string).

(** [recordSavePayload]. *)
Record recordSavePayload : Type := mkSavePayload {
  SAtomic : bool;
  RawMaps : list JSONMap;
  IncomingItems : list IncomingItem;
  Records : list Record_;
  Errs : list Error;
  Clean : bool
}.

Definition recordSavePayload_zero : recordSavePayload :=
  mkSavePayload false [] [] [] [] false.

Definition recordSavePayload_ItemLen (payload : recordSavePayload) : nat :=
  length (RawMaps payload).

(** One round of the loop of [Validate]. *)
Definition recordSavePayload_Validate_step (payload : recordSavePayload)
    (recordMap : JSONMap) : recordSavePayload :=
  match FromMap E recordMap with
  | inl msg =>
    let skyErr := NewError InvalidArgument msg in
    mkSavePayload (SAtomic payload) (RawMaps payload)
      (IncomingItems payload ++ [IncomingError skyErr])
      (Records payload)
      (Errs payload ++ [skyErr])
      false
  | inr record0 =>
    let record := SanitizeForInput E record0 in
    mkSavePayload (SAtomic payload) (RawMaps payload)
      (IncomingItems payload ++ [IncomingID (ID record)])
      (Records payload ++ [record])
      (Errs payload)
      (Clean payload)
  end.

Definition recordSavePayload_Validate (payload : recordSavePayload)
    : recordSavePayload * option Error :=
  if decide (recordSavePayload_ItemLen payload = 0) then
    (payload, Some (NewInvalidArgument "expected list of record" ["records"]))
  else
    (fold_left recordSavePayload_Validate_step (RawMaps payload)
       (mkSavePayload (SAtomic payload) (RawMaps payload) [] [] [] true),
     None).

Definition recordSavePayload_Decode (payload : recordSavePayload)
    (data : JSONMap) : recordSavePayload * option Error :=
  match DecodeSave E data with
  | None =>
    (payload, Some (NewError BadRequest "fails to decode the request payload"))
  | Some (atomic, rawMaps) =>
    recordSavePayload_Validate
      (mkSavePayload atomic rawMaps (IncomingItems payload) (Records payload)
         (Errs payload) (Clean payload))
  end.

(** [atomicModifyFunc].  The outer [req] and [resp] are shadowed by the
    parameters of the function it returns.  Go ranges over the error map
    in an unspecified order; the fold below takes the order of the map,
    which matters only when two failing ids have the same string form. *)
Definition atomicModifyFunc (_ : RecordModifyRequest W AuthInfo FieldACL)
    (_ : RecordModifyResponse) (mFunc : recordModifyFunc)
    : recordModifyFunc :=
  fun req resp w =>
    match AsTransactional (Db req) with
    | None =>
      (Some (NewError NotSupported
               "database impl does not support transaction"), resp, w)
    | Some txDB =>
      let '(txErr, resp', w') :=
        WithTransaction txDB
          (fun resp w =>
             let '(e, resp', w') := mFunc req resp w in
             (as_error e, resp', w'))
          resp w in
      if decide (0 < size (ErrMap resp')) then
        let info :=
          map_fold
            (fun recordID err (info : gmap string InfoValue) =>
               <[RecordID_String E recordID := InfoError (error_sky err)]> info)
            ∅ (ErrMap resp') in
        (Some (NewErrorWithInfo AtomicOperationFailure
                 "Atomic Operation rolled back due to one or more errors"
                 info), resp', w')
      else
        match txErr with
        | Some txErr =>
          (Some (NewErrorWithInfo AtomicOperationFailure
                   "Atomic Operation rolled back due to an error"
                   {[ "innerError" := InfoError txErr ]}), resp', w')
        | None => (None, resp', w')
        end
    end.

(** The loop of [makeResultsFromIncomingItem]; indexing the saved
    records out of range panics. *)
Fixpoint makeResults_loop (incomingItems : list IncomingItem)
    (resp : RecordModifyResponse) (resultFilter : Filter)
    (currRecordIdx : nat) (results : list ResultItem)
    : Outcome (list ResultItem) :=
  match incomingItems with
  | [] => Done results
  | itemi :: rest =>
    match itemi with
    | IncomingError item =>
      makeResults_loop rest resp resultFilter currRecordIdx
        (results ++ [ItemError (newSerializedError "" item)])
    | IncomingID item =>
      match ErrMap resp !! item with
      | Some err =>
        makeResults_loop rest resp resultFilter currRecordIdx
          (results ++
             [ItemError (newSerializedError (RecordID_String E item) err)])
      | None =>
        match SavedRecords resp !! currRecordIdx with
        | Some record =>
          makeResults_loop rest resp resultFilter (S currRecordIdx)
            (results ++ [ItemRecord (JSONResult E resultFilter record)])
        | None => Panic "runtime error: index out of range"
        end
      end
    | IncomingOther typeName =>
      Panic ("unknown type of incoming item: " ++ typeName)
    end
  end.

Definition makeResultsFromIncomingItem (incomingItems : list IncomingItem)
    (resp : RecordModifyResponse) (resultFilter : Filter)
    (results : list ResultItem) : Outcome (list ResultItem) :=
  makeResults_loop incomingItems resp resultFilter 0 results.

(** [RecordSaveHandler]: the injected event sender, possibly nil. *)
Record RecordSaveHandler : Type := {
  EventSender : option (W -> option error * W)
}.

(** The request that [RecordSaveHandler.Handle] builds. *)
Definition RecordSaveHandler_request (payload : Payload)
    (p : recordSavePayload) : RecordModifyRequest W AuthInfo FieldACL :=
  {| Db := PDatabase payload;
     ReqConn := DBConn payload;
     ReqAuthInfo := PAuthInfo payload;
     RecordsToSave := Records p;
     RecordIDsToDelete := [];
     Atomic := SAtomic p;
     WithMasterKey := HasMasterKey payload |}.

Definition RecordSaveHandler_Handle (h : RecordSaveHandler)
    (payload : Payload) (response : Response) (w : W)
    : Outcome Response * W :=
  let '(p, skyErr) :=
    recordSavePayload_Decode recordSavePayload_zero (PData payload) in
  match skyErr with
  | Some skyErr => (Done (setErr skyErr response), w)
  | None =>
  if IsReadOnly (PDatabase payload) then
    (Done (setErr (NewError NotSupported
                     "modifying the selected database is not supported")
             response), w)
  else
  match NewRecordResultFilter E (DBConn payload) (PAuthInfo payload)
          (HasMasterKey payload) w with
  | inl err => (Done (setErr (MakeError E err) response), w)
  | inr resultFilter =>
  let req := RecordSaveHandler_request payload p in
  let resp := mkResponse ∅ [] in
  (* [None]: the handler returns from within the branch. *)
  let saveFunc : option recordModifyFunc :=
    if SAtomic p then
      if negb (Clean p) then None
      else Some (atomicModifyFunc req resp (recordutil_RecordSaveHandler E))
    else Some (recordutil_RecordSaveHandler E) in
  match saveFunc with
  | None =>
    (Done (setErr (NewErrorWithInfo InvalidArgument
                     "fails to de-serialize records"
                     (<["arguments" := InfoString "records"]>
                        {[ "errors" := InfoErrors (Errs p) ]}))
             response), w)
  | Some saveFunc =>
  match recordutil_ExtendRecordSchema E (PDatabase payload) (Records p) w with
  | ((_, Some err), w1) =>
    match err with
    | error_sky myerr => (Done (setErr myerr response), w1)
    | errors_New _ =>
      (Done (setErr (NewError IncompatibleSchema
                       "failed to migrate record schema") response), w1)
    end
  | ((schemaUpdated, None), w1) =>
  match saveFunc req resp w1 with
  | (Some err, _, w2) => (Done (setErr err response), w2)
  | (None, resp', w2) =>
  match makeResultsFromIncomingItem (IncomingItems p) resp' resultFilter [] with
  | Panic msg => (Panic msg, w2)
  | Done results =>
    let response := setResult results response in
    match schemaUpdated, EventSender h with
    | true, Some sender =>
      (Done response,
       (sendSchemaChangedEvent E sender (PDatabase payload) w2).2)
    | _, _ => (Done response, w2)
    end
  end end end end end end.

(** *** Fetch *)

(** [recordFetchPayload]. *)
Record recordFetchPayload : Type := mkFetchPayload {
  RecordIDs : list RecordID;
  RawIDs : list string
}.

Definition recordFetchPayload_zero : recordFetchPayload :=
  mkFetchPayload [] [].

(** The loop of [recordFetchPayload.Validate] from index [i] on;
    [recordIDs] is the array made before the loop, filled in place. *)
Fixpoint recordFetchPayload_Validate_loop (i : nat) (rawIDs : list string)
    (recordIDs : list RecordID) : list RecordID * option Error :=
  match rawIDs with
  | [] => (recordIDs, None)
  | rawID :: rest =>
    let ss := SplitN rawID in
    if decide (length ss = 1) then
      (recordIDs,
       Some (NewInvalidArgument ("invalid id format: " ++ rawID) ["ids"]))
    else
      recordFetchPayload_Validate_loop (S i) rest
        (<[i := mkRecordID (nth 0 ss "") (nth 1 ss "")]> recordIDs)
  end.

Definition recordFetchPayload_Validate (payload : recordFetchPayload)
    : recordFetchPayload * option Error :=
  if decide (length (RawIDs payload) = 0) then
    (payload, Some (NewInvalidArgument "expected list of id" ["ids"]))
  else
    let length_ := length (RawIDs payload) in
    let '(recordIDs, err) :=
      recordFetchPayload_Validate_loop 0 (RawIDs payload)
        (replicate length_ (mkRecordID "" "")) in
    (mkFetchPayload recordIDs (RawIDs payload), err).

Definition recordFetchPayload_Decode (payload : recordFetchPayload)
    (data : JSONMap) : recordFetchPayload * option Error :=
  match DecodeFetch E data with
  | None =>
    (payload, Some (NewError BadRequest "fails to decode the request payload"))
  | Some rawIDs =>
    recordFetchPayload_Validate (mkFetchPayload (RecordIDs payload) rawIDs)
  end.

Definition recordFetchPayload_ItemLen (payload : recordFetchPayload) : nat :=
  length (RecordIDs payload).

(** The loop of [RecordFetchHandler.Handle].  The source assigns
    [results[i]] for [i] from 0 upwards in an array made beforehand; the
    array is read only after the loop, so that it is built here by
    appending. *)
Fixpoint RecordFetchHandler_loop (payload : Payload) (resultFilter : Filter)
    (recordIDs : list RecordID) (results : list ResultItem) (w : W)
    : list ResultItem * W :=
  match recordIDs with
  | [] => (results, w)
  | recordID :: rest =>
    match FetchRecord E (PDatabase payload) (DBConn payload)
            (HasMasterKey payload) recordID (PAuthInfo payload) w with
    | (inl err, w') =>
      RecordFetchHandler_loop payload resultFilter rest
        (results ++
           [ItemError (newSerializedError (RecordID_String E recordID) err)])
        w'
    | (inr record, w') =>
      RecordFetchHandler_loop payload resultFilter rest
        (results ++ [ItemRecord (JSONResult E resultFilter record)]) w'
    end
  end.

Definition RecordFetchHandler_Handle (payload : Payload)
    (response : Response) (w : W) : Response * W :=
  let '(p, skyErr) :=
    recordFetchPayload_Decode recordFetchPayload_zero (PData payload) in
  match skyErr with
  | Some skyErr => (setErr skyErr response, w)
  | None =>
  match NewRecordResultFilter E (DBConn payload) (PAuthInfo payload)
          (HasMasterKey payload) w with
  | inl err => (setErr (MakeError E err) response, w)
  | inr resultFilter =>
    let '(results, w') :=
      RecordFetchHandler_loop payload resultFilter (RecordIDs p) [] w in
    (setResult results response, w')
  end end.

(** *** Query *)

(** [recordQueryPayload]. *)
Record recordQueryPayload : Type := mkQueryPayload {
  PQuery : Query
}.

(** The zero query: no record type and an empty predicate. *)
Definition recordQueryPayload_zero : recordQueryPayload :=
  mkQueryPayload
    {| QType := ""; QPredicate := Combinator "" []; QEagerLoadPaths := [] |}.

Definition recordQueryPayload_Validate (payload : recordQueryPayload)
    : option Error :=
  None.

Definition recordQueryPayload_Decode (payload : recordQueryPayload)
    (data : JSONMap) (parserUserID : string)
    : recordQueryPayload * option Error :=
  match queryFromRaw E parserUserID data with
  | inl err => (payload, Some err)
  | inr query =>
    (mkQueryPayload query, recordQueryPayload_Validate (mkQueryPayload query))
  end.

(** Modelled from the spec: the [queryAccessVisitor], its [Accept] walk
    and its [Error] are not part of the sources at hand.  Section 4.2:
    on the first denial a single PermissionDenied error naming the
    offending field and record type is produced. *)
Definition queryAccessVisitor_Error (fieldACL : FieldACL)
    (authInfo : AuthInfo) (query : Query) : option Error :=
  match visit (fun recordType field =>
                 Accessible E fieldACL recordType field authInfo)
          (QPredicate query) with
  | Some (recordType, field) =>
    Some (NewError PermissionDenied
            ("Cannot query on field " ++ field ++ " of record type " ++
             recordType ++ " due to Field ACL"))
  | None => None
  end.

(** [RecordQueryHandler.Handle] from the store query on.  The deferred
    [results.Close()] releases the cursor and is not modelled. *)
Definition RecordQueryHandler_execute (payload : Payload)
    (p : recordQueryPayload)
    (accessControlOptions : AccessControlOptions AuthInfo)
    (response : Response) (w : W) : Response * W :=
  let db := PDatabase payload in
  match DbQuery db (PQuery p) accessControlOptions w with
  | (inl err, w1) => (setErr (MakeError E err) response, w1)
  | (inr results, w1) =>
    let records := Scanned results in
    match RowsErr results with
    | Some scanErr => (setErr (MakeError E scanErr) response, w1)
    | None =>
      let records := MakeAssetsComplete E db (DBConn payload) records w1 in
      let '(eagerRecords, w2) :=
        DoQueryEager E db (EagerIDs E db records (PQuery p))
          accessControlOptions w1 in
      match NewRecordResultFilter E (DBConn payload) (PAuthInfo payload)
              (BypassAccessControl accessControlOptions) w2 with
      | inl err => (setErr (MakeError E err) response, w2)
      | inr recordResultFilter =>
        let output :=
          (fun record =>
             ItemRecord (QueryResultFilter_JSONResult E db (PQuery p)
                           eagerRecords recordResultFilter record))
            <$> records in
        let response := setResult output response in
        match QueryResultInfo E db (PQuery p) accessControlOptions results
                w2 with
        | (inl err, w3) => (setErr (MakeError E err) response, w3)
        | (inr resultInfo, w3) =>
          if decide (0 < size resultInfo)
          then (setInfo resultInfo response, w3)
          else (response, w3)
        end
      end
    end
  end.

Definition RecordQueryHandler_Handle (payload : Payload)
    (response : Response) (w : W) : Outcome Response * W :=
  let '(p, skyErr) :=
    recordQueryPayload_Decode recordQueryPayload_zero (PData payload)
      (AuthInfoID payload) in
  match skyErr with
  | Some skyErr => (Done (setErr skyErr response), w)
  | None =>
  let accessControlOptions := {|
    ViewAsUser := PAuthInfo payload;
    BypassAccessControl := HasMasterKey payload |} in
  match GetRecordFieldAccess (DBConn payload) w with
  | inl err => (Panic (error_text err), w)
  | inr fieldACL =>
  let denied :=
    if negb (BypassAccessControl accessControlOptions) then
      queryAccessVisitor_Error fieldACL (ViewAsUser accessControlOptions)
        (PQuery p)
    else None in
  match denied with
  | Some err => (Done (setErr err response), w)
  | None =>
    let '(response', w') :=
      RecordQueryHandler_execute payload p accessControlOptions response w in
    (Done response', w')
  end end end.

(** *** Delete *)

(** [recordDeletePayload]. *)
Record recordDeletePayload : Type := mkDeletePayload {
  DeprecatedIDs : list string;
  RawRecords : list recordDeleteRecordPayload;
  DAtomic : bool;
  parsedRecordIDs : list RecordID
}.

Definition recordDeletePayload_zero : recordDeletePayload :=
  mkDeletePayload [] [] false [].

(** The loop of [recordDeletePayload.Validate] over the deprecated ids,
    from index [i] on. *)
Fixpoint recordDeletePayload_Validate_loop (i : nat) (rawIDs : list string)
    (recordIDs : list RecordID) : list RecordID * option Error :=
  match rawIDs with
  | [] => (recordIDs, None)
  | rawID :: rest =>
    let ss := SplitN rawID in
    if decide (length ss = 1) then
      (recordIDs,
       Some (NewInvalidArgument
               ("record: " ++ dquote ++ "_id" ++ dquote ++
                " should be of format '{type}/{id}', got " ++
                dquote ++ rawID ++ dquote)
               ["ids"]))
    else
      recordDeletePayload_Validate_loop (S i) rest
        (<[i := mkRecordID (nth 0 ss "") (nth 1 ss "")]> recordIDs)
  end.

Definition recordDeletePayload_Validate (payload : recordDeletePayload)
    : recordDeletePayload * option Error :=
  if decide (0 < length (RawRecords payload)) then
    (mkDeletePayload (DeprecatedIDs payload) (RawRecords payload)
       (DAtomic payload)
       (recordDeleteRecordPayload_RecordID <$> RawRecords payload),
     None)
  else if decide (0 < length (DeprecatedIDs payload)) then
    let length_ := length (DeprecatedIDs payload) in
    let '(recordIDs, err) :=
      recordDeletePayload_Validate_loop 0 (DeprecatedIDs payload)
        (replicate length_ (mkRecordID "" "")) in
    (mkDeletePayload (DeprecatedIDs payload) (RawRecords payload)
       (DAtomic payload) recordIDs,
     err)
  else
    (payload,
     Some (NewInvalidArgument "expected list of records" ["records"])).

Definition recordDeletePayload_Decode (payload : recordDeletePayload)
    (data : JSONMap) : recordDeletePayload * option Error :=
  match DecodeDelete E data with
  | None =>
    (payload, Some (NewError BadRequest "fails to decode the request payload"))
  | Some (deprecatedIDs, rawRecords, atomic) =>
    recordDeletePayload_Validate
      (mkDeletePayload deprecatedIDs rawRecords atomic
         (parsedRecordIDs payload))
  end.

(** One round of the result loop of [RecordDeleteHandler.Handle]. *)
Definition RecordDeleteHandler_result (resp : RecordModifyResponse)
    (recordID : RecordID) : ResultItem :=
  match ErrMap resp !! recordID with
  | Some err =>
    ItemError (newSerializedError (RecordID_String E recordID) err)
  | None => ItemDeleted recordID (Key recordID) (Type_ recordID) "record"
  end.

(** The request that [RecordDeleteHandler.Handle] builds. *)
Definition RecordDeleteHandler_request (payload : Payload)
    (p : recordDeletePayload) : RecordModifyRequest W AuthInfo FieldACL :=
  {| Db := PDatabase payload;
     ReqConn := DBConn payload;
     ReqAuthInfo := PAuthInfo payload;
     RecordsToSave := [];
     RecordIDsToDelete := parsedRecordIDs p;
     Atomic := DAtomic p;
     WithMasterKey := HasMasterKey payload |}.

Definition RecordDeleteHandler_Handle (payload : Payload)
    (response : Response) (w : W) : Response * W :=
  let '(p, skyErr) :=
    recordDeletePayload_Decode recordDeletePayload_zero (PData payload) in
  match skyErr with
  | Some skyErr => (setErr skyErr response, w)
  | None =>
  if IsReadOnly (PDatabase payload) then
    (setErr (NewError NotSupported
               "modifying the selected database is not supported")
       response, w)
  else
  let req := RecordDeleteHandler_request payload p in
  let resp := mkResponse ∅ [] in
  let deleteFunc : recordModifyFunc :=
    if DAtomic p
    then atomicModifyFunc req resp (recordutil_RecordDeleteHandler E)
    else recordutil_RecordDeleteHandler E in
  match deleteFunc req resp w with
  | (Some err, _, w1) => (setErr err response, w1)
  | (None, resp', w1) =>
    let results :=
      fold_left
        (fun (results : list ResultItem) recordID =>
           (results ++ [RecordDeleteHandler_result resp' recordID])%list)
        (parsedRecordIDs p) [] in
    (setResult results response, w1)
  end end.

End Handlers.

Arguments recordModifyFunc : clear implicits.
Arguments Externals : clear implicits.
Arguments Payload : clear implicits.
Arguments ResultItem : clear implicits.
Arguments Response : clear implicits.
Arguments recordSavePayload : clear implicits.
Arguments RecordSaveHandler : clear implicits.

(** *** Serialization helpers *)

(** [jsonData] holds values of type [interface{}].  A value either
    implements [skyconv.ToMapper] or not; a [ToMapper] is given by the
    map that its [ToMap] writes into an empty map, which is all that
    [jsonData.ToMap] asks of it.  [JMap] is a [map[string]interface{}]
    and [JPlain] any other value. *)
Inductive jsonValue (V : Type) : Type :=
| JPlain (v : V)
| JMap (m : gmap string (jsonValue V))
| JToMapper (written : gmap string (jsonValue V)).
Arguments JPlain {V} v.
Arguments JMap {V} m.
Arguments JToMapper {V} written.

(** [jsonData.ToMap]: it writes into [m], a map that exists (writing
    into a nil map panics) and that the caller shares; the updated map
    is returned.  Go ranges over [data] in an unspecified order; the
    fold below takes the order of the map. *)
Definition jsonData_ToMap {V : Type} (data m : gmap string (jsonValue V))
    : gmap string (jsonValue V) :=
  map_fold
    (fun key value (m : gmap string (jsonValue V)) =>
       match value with
       | JToMapper written =>
         let valueMap := written in
         <[key := JMap valueMap]> m
       | _ => <[key := value]> m
       end)
    m data.

(** The values of the map that [serializedError.MarshalJSON] builds. *)
Inductive MarshalValue : Type :=
| MString (s : string)
| MCode (code : ErrorCode)
| MInfo (info : gmap string InfoValue).

(** [serializedError.MarshalJSON], up to the final [json.Marshal]: the
    map that is marshalled.  [Name] is the method [Name] of
    [skyerr.Error], declared outside the sources at hand. *)
Definition serializedError_MarshalJSON (Name : Error -> string)
    (s : serializedError) : gmap string MarshalValue :=
  let m : gmap string MarshalValue :=
    <["_type" := MString "error"]>
      (<["name" := MString (Name (err s))]>
         (<["code" := MCode (Code (err s))]>
            {[ "message" := MString (Message (err s)) ]})) in
  let m :=
    if decide (id s <> "") then
      let m := <["_id" := MString (id s)]> m in
      let ss := SplitN (id s) in
      if decide (length ss = 2) then
        <["_recordID" := MString (nth 1 ss "")]>
          (<["_recordType" := MString (nth 0 ss "")]> m)
      else m
    else m in
  match Info (err s) with
  | Some info => <["info" := MInfo info]> m
  | None => m
  end.

End handler.

(* ===================================================================== *)
(** ** Package push: push.go *)
(* ===================================================================== *)

Module push.
Import skyerr.

(** Modelled from the spec: [skydb.Device], declared outside the sources
    at hand, with the type tag push.go reads; the Go field [Type] is
    spelled [DeviceType]. *)
Record Device : Type := {
  DeviceID : string;
  DeviceType : string;
  Token : string
}.

Section Push.
Context {W V : Type}.

(** The interface [Mapper]: an object with the method [Map]; [V] is the
    type of JSON-marshallable values. *)
Record Mapper : Type := {
  Map : unit -> gmap string V
}.

Definition EmptyMapper : Mapper := {| Map := fun _ => ∅ |}.

Definition MapMapper (m : gmap string V) : Mapper := {| Map := fun _ => m |}.

(** The interface [Sender]: an object with the method [Send]. *)
Record Sender : Type := {
  Send : Mapper -> Device -> W -> option error * W
}.

(** [RouteSender].  A value of interface type may be nil: the map holds
    [None] for a nil sender. *)
Record RouteSender : Type := {
  senders : gmap string (option Sender)
}.

Definition NewRouteSender : RouteSender := {| senders := ∅ |}.

(** [Route] writes into the map that all copies of the router share;
    the updated router is returned. *)
Definition Route (s : RouteSender) (service : string)
    (sender : option Sender) : RouteSender :=
  {| senders := <[service := sender]> (senders s) |}.

Definition Len (s : RouteSender) : nat := size (senders s).

(** [RouteSender.Send]; calling a method of a nil interface panics. *)
Definition RouteSender_Send (s : RouteSender) (m : Mapper) (device : Device)
    (w : W) : Outcome (option error) * W :=
  match senders s !! DeviceType device with
  | None =>
    (Done (Some (errors_New ("cannot find sender with type = " ++
                             DeviceType device))), w)
  | Some None =>
    (Panic "runtime error: invalid memory address or nil pointer dereference",
     w)
  | Some (Some sender) =>
    let '(result, w') := Send sender m device w in (Done result, w')
  end.

End Push.

Arguments Mapper : clear implicits.
Arguments Sender : clear implicits.
Arguments RouteSender : clear implicits.

End push.

(* ===================================================================== *)
(** ** A concrete store and concrete collaborators *)
(* ===================================================================== *)

(** A small instance of everything the handlers take as a parameter; the
    general statements below are run on it. *)
Module example.
Import skyerr skydb recordutil handler.

(** The content of the store: the schema and the rows. *)
Record Store : Type := mkStore {
  schema : Schema;
  rows : gmap RecordID Record_
}.

Abbreviation World := (TxState Store).

(** Request data.  [RecordMap id fields] is one incoming record with its
    ["_id"] and its fields. *)
Inductive JSONMap : Type :=
| RecordMap (id : string) (fields : list (string * Value))
| SaveData (atomic : bool) (records : list JSONMap)
| FetchData (ids : list string)
| DeleteData (ids : list string) (records : list recordDeleteRecordPayload)
    (atomic : bool)
| QueryData (query : Query).

Definition String_ (id : RecordID) : string :=
  Type_ id ++ "/" ++ Key id.

Definition FromMap (m : JSONMap) : string + Record_ :=
  match m with
  | RecordMap id fields =>
    match SplitN id with
    | [type; key] => inr (mkRecord (mkRecordID type key) fields)
    | _ => inl ("invalid record id: " ++ id)
    end
  | _ => inl "not a record"
  end.

Definition isLocked (r : Record_) : bool :=
  existsb
    (fun fv : string * Value =>
       match fv.2 with
       | VBoolean true => bool_decide (fv.1 = "locked")
       | _ => false
       end)
    (Data r).

(** Saving one record: refused when the stored record is locked. *)
Definition saveItem (r : Record_) (s : Store) : (Error + Record_) * Store :=
  match rows s !! ID r with
  | Some old =>
    if isLocked old
    then (inl (NewError PermissionDenied "record is locked"), s)
    else (inr r, mkStore (schema s) (<[ID r := r]> (rows s)))
  | None => (inr r, mkStore (schema s) (<[ID r := r]> (rows s)))
  end.

(** Deleting one record: refused when it is missing or locked. *)
Definition deleteItem (id : RecordID) (s : Store) : option Error * Store :=
  match rows s !! id with
  | Some old =>
    if isLocked old
    then (Some (NewError PermissionDenied "record is locked"), s)
    else (None, mkStore (schema s) (delete id (rows s)))
  | None => (Some (NewError UnexpectedError "record not found"), s)
  end.

Definition getSchema (w : World) : Schema := schema (current w).

Definition setSchema (sch : Schema) (w : World) : World :=
  mkTxState (mkStore sch (rows (current w))) (snapshot w).

Definition noFault (s : Store) : option error := None.

(** A database over the store: read-only or not, with or without the
    transaction capability. *)
Definition database (readOnly : bool) (tx : option (Transactional World))
    : Database World string :=
  {| IsReadOnly := readOnly;
     AsTransactional := tx;
     DbQuery := fun q _ w =>
       (inr {| Scanned :=
                 filter (fun r => Type_ (ID r) = QType q)
                   (map_to_list (rows (current w))).*2;
               RowsErr := None |}, w) |}.

(** The field ACL: the (record type, field) pairs nobody may read. *)
Definition conn (denied : list (string * string))
    : Conn World (list (string * string)) :=
  {| GetRecordFieldAccess := fun _ => inr denied |}.

Definition externals
  : Externals World string (list (string * string)) JSONMap Record_ unit :=
  {| DecodeSave := fun d =>
       match d with SaveData a rs => Some (a, rs) | _ => None end;
     DecodeFetch := fun d =>
       match d with FetchData ids => Some ids | _ => None end;
     DecodeDelete := fun d =>
       match d with
       | DeleteData ids rs a => Some (ids, rs, a)
       | _ => None
       end;
     handler.FromMap := FromMap;
     SanitizeForInput := fun r => r;
     RecordID_String := String_;
     MakeError := fun e =>
       match e with
       | error_sky e => e
       | errors_New msg => NewError UnexpectedError msg
       end;
     queryFromRaw := fun _ d =>
       match d with
       | QueryData q => inr q
       | _ => inl (NewError InvalidArgument "not a query")
       end;
     Accessible := fun denied recordType field _ =>
       bool_decide ((recordType, field) ∉ denied);
     sendSchemaChangedEvent := fun sender _ w => sender w;
     NewRecordResultFilter := fun _ _ _ _ => inr tt;
     JSONResult := fun _ r => r;
     recordutil_RecordSaveHandler :=
       recordutil.RecordSaveHandler (fun _ r => onCurrent (saveItem r));
     recordutil_RecordDeleteHandler :=
       recordutil.RecordDeleteHandler (fun _ id => onCurrent (deleteItem id));
     recordutil_ExtendRecordSchema := fun _ =>
       recordutil.ExtendRecordSchema getSchema setSchema;
     FetchRecord := fun _ _ _ id _ w =>
       match rows (current w) !! id with
       | Some r => (inr r, w)
       | None => (inl (NewError UnexpectedError "record not found"), w)
       end;
     MakeAssetsComplete := fun _ _ rs _ => rs;
     EagerIDs := fun _ _ _ => ∅;
     DoQueryEager := fun _ _ _ w => (∅, w);
     QueryResultFilter_JSONResult := fun _ _ _ _ r => r;
     QueryResultInfo := fun _ _ _ _ w => (inr ∅, w) |}.

Definition payload (data : JSONMap) (db : Database World string)
    (denied : list (string * string)) (masterKey : bool)
    : Payload World string (list (string * string)) JSONMap :=
  {| PData := data;
     PDatabase := db;
     DBConn := conn denied;
     PAuthInfo := "alice";
     AuthInfoID := "alice";
     HasMasterKey := masterKey |}.

Definition noResponse : Response Record_ := mkRouterResponse None None None.

Definition saveHandler : RecordSaveHandler World := {| EventSender := None |}.

Definition txDatabase : Database World string :=
  database false (Some (snapshotTx noFault noFault)).

Definition plainDatabase : Database World string := database false None.

Definition readOnlyDatabase : Database World string := database true None.

Definition emptyWorld : World := mkTxState (mkStore ∅ ∅) None.

(** Incoming records. *)
Definition noteA : JSONMap := RecordMap "note/1" [("locked", VBoolean true)].
Definition noteB : JSONMap := RecordMap "note/1" [("title", VString "b")].
Definition noteC : JSONMap := RecordMap "note/2" [("title", VString "c")].
Definition malformed : JSONMap := RecordMap "note" [].
Definition twelve : JSONMap := RecordMap "person/1" [("age", VString "twelve")].

Definition note1 : RecordID := mkRecordID "note" "1".
Definition note2 : RecordID := mkRecordID "note" "2".

Definition recordA : Record_ := mkRecord note1 [("locked", VBoolean true)].
Definition recordB : Record_ := mkRecord note1 [("title", VString "b")].
Definition recordC : Record_ := mkRecord note2 [("title", VString "c")].

Definition lockedError : Error := NewError PermissionDenied "record is locked".

(** A store that declares [person.age] an integer. *)
Definition personStore : Store :=
  mkStore {[ ("person", "age") := TInteger ]} ∅.

(** A store that holds the locked record [note/1]. *)
Definition lockedStore : Store := mkStore ∅ {[ note1 := recordA ]}.

(** [lockedStore] after the schema has been extended by [note.title]. *)
Definition lockedStoreExtended : Store :=
  mkStore {[ ("note", "title") := TString ]} {[ note1 := recordA ]}.

(** The schema extension of the concrete collaborators, on the content
    of the store. *)
Definition extend (records : list Record_) (s : Store)
    : (bool * option error) * Store :=
  recordutil.ExtendRecordSchema schema (fun sch s => mkStore sch (rows s))
    records s.

(** A query on the field [secret] of [note]. *)
Definition secretQuery : Query :=
  {| QType := "note";
     QPredicate := Combinator "and"
       [Comparison "note" "title" "=" (VString "hello");
        Comparison "note" "secret" "=" (VString "x")];
     QEagerLoadPaths := [] |}.

(** The request of an atomic save of [recordB] and [recordC]. *)
Definition atomicRequest
  : RecordModifyRequest World string (list (string * string)) :=
  {| Db := txDatabase;
     ReqConn := conn [];
     ReqAuthInfo := "alice";
     RecordsToSave := [recordB; recordC];
     RecordIDsToDelete := [];
     Atomic := true;
     WithMasterKey := false |}.

(** The same request on a database without transactions. *)
Definition plainRequest
  : RecordModifyRequest World string (list (string * string)) :=
  {| Db := plainDatabase;
     ReqConn := conn [];
     ReqAuthInfo := "alice";
     RecordsToSave := [recordB; recordC];
     RecordIDsToDelete := [];
     Atomic := true;
     WithMasterKey := false |}.

Definition freshResponse : RecordModifyResponse := mkResponse ∅ [].

(** The response of the atomic save of [atomicRequest] on
    [lockedStore]: [note/1] is refused, [note/2] is saved. *)
Definition refusedResponse : RecordModifyResponse :=
  mkResponse {[ note1 := lockedError ]} [recordC].

(** A delete batch and its validated payload. *)
Definition deleteBatch : JSONMap :=
  DeleteData []
    [{| PType := "note"; PKey := "1" |}; {| PType := "note"; PKey := "2" |}]
    false.

Definition deletePayload : recordDeletePayload :=
  mkDeletePayload []
    [{| PType := "note"; PKey := "1" |}; {| PType := "note"; PKey := "2" |}]
    false [note1; note2].

(** The empty store after the schema has been extended by [note.locked]
    and [note.title]. *)
Definition notesWorld : World :=
  mkTxState
    (mkStore {[ ("note", "locked") := TBoolean; ("note", "title") := TString ]}
       ∅)
    None.

(** Push: a sender that records nothing and succeeds. *)
Definition apns : push.Sender unit nat :=
  {| push.Send := fun _ _ w => (None, w) |}.

Definition phone : push.Device :=
  {| push.DeviceID := "d1"; push.DeviceType := "ios"; push.Token := "t" |}.

Definition tablet : push.Device :=
  {| push.DeviceID := "d2"; push.DeviceType := "android"; push.Token := "u" |}.

(** A router with one sender, for the service "ios". *)
Definition router : push.RouteSender unit nat :=
  push.Route push.NewRouteSender "ios" (Some apns).

(** The collaborators of [externals] with another inner save function
    and another computation of the query result info. *)
Definition externalsWith
    (saveFunc : recordModifyFunc World string (list (string * string)))
    (queryInfo : World -> (error + gmap string InfoValue) * World)
  : Externals World string (list (string * string)) JSONMap Record_ unit :=
  {| DecodeSave := DecodeSave externals;
     DecodeFetch := DecodeFetch externals;
     DecodeDelete := DecodeDelete externals;
     handler.FromMap := handler.FromMap externals;
     SanitizeForInput := SanitizeForInput externals;
     RecordID_String := RecordID_String externals;
     MakeError := MakeError externals;
     queryFromRaw := queryFromRaw externals;
     Accessible := Accessible externals;
     sendSchemaChangedEvent := sendSchemaChangedEvent externals;
     NewRecordResultFilter := NewRecordResultFilter externals;
     JSONResult := JSONResult externals;
     recordutil_RecordSaveHandler := saveFunc;
     recordutil_RecordDeleteHandler := recordutil_RecordDeleteHandler externals;
     recordutil_ExtendRecordSchema := recordutil_ExtendRecordSchema externals;
     FetchRecord := FetchRecord externals;
     MakeAssetsComplete := MakeAssetsComplete externals;
     EagerIDs := EagerIDs externals;
     DoQueryEager := DoQueryEager externals;
     QueryResultFilter_JSONResult := QueryResultFilter_JSONResult externals;
     QueryResultInfo := fun _ _ _ _ => queryInfo |}.

(** An inner save function that reports neither an error nor a saved
    record. *)
Definition forgetful
  : recordModifyFunc World string (list (string * string)) :=
  fun _ resp w => (None, resp, w).

(** A computation of the query result info that fails. *)
Definition noCount (w : World) : (error + gmap string InfoValue) * World :=
  (inl (errors_New "count failed"), w).

(** The names of the error codes. *)
Definition errorName (e : Error) : string :=
  match Code e with
  | PermissionDenied => "PermissionDenied"
  | BadRequest => "BadRequest"
  | InvalidArgument => "InvalidArgument"
  | NotSupported => "NotSupported"
  | IncompatibleSchema => "IncompatibleSchema"
  | AtomicOperationFailure => "AtomicOperationFailure"
  | UnexpectedError => "UnexpectedError"
  end.

(** A save payload of a well-formed and a malformed record, before and
    after validation. *)
Definition mixedPayload : recordSavePayload JSONMap :=
  mkSavePayload false [noteC; malformed] [] [] [] false.

Definition mixedValidated : recordSavePayload JSONMap :=
  mkSavePayload false [noteC; malformed]
    [IncomingID note2;
     IncomingError (NewError InvalidArgument "invalid record id: note")]
    [recordC] [NewError InvalidArgument "invalid record id: note"] false.

(** A record id whose key holds a slash. *)
Definition nested : RecordID := mkRecordID "file" "a/b".

(** A sender that fails. *)
Definition gcm : push.Sender unit nat :=
  {| push.Send := fun _ _ w => (Some (errors_New "gcm is down"), w) |}.

(** Data under two keys: a plain value and a value with [ToMap]. *)
Definition plainAndMapper : gmap string (jsonValue nat) :=
  {[ "count" := JPlain 3;
     "owner" := JToMapper {[ "$type" := JPlain 0; "$id" := JPlain 7 ]} ]}.

End example.

(* ===================================================================== *)
(** ** Vocabulary of the specification *)
(* ===================================================================== *)

Module spec.
Import skyerr skydb recordutil handler.

Section Spec.
Context {W AuthInfo FieldACL JSONMap JSON Filter : Type}.
Variable E : Externals W AuthInfo FieldACL JSONMap JSON Filter.

(** De-serialization of one incoming record: the error it fails with,
    or the sanitized record. *)
Definition decodeItem (recordMap : JSONMap) : Error + Record_ :=
  match FromMap E recordMap with
  | inl msg => inl (NewError InvalidArgument msg)
  | inr record => inr (SanitizeForInput E record)
  end.

(** The de-serialization errors of a batch, in input order. *)
Definition lefts {A B : Type} (l : list (A + B)) : list A :=
  omap (fun x => match x with inl a => Some a | inr _ => None end) l.

(** The de-serialized records of a batch, in input order. *)
Definition rights {A B : Type} (l : list (A + B)) : list B :=
  omap (fun x => match x with inl _ => None | inr b => Some b end) l.

Definition incomingItem (x : Error + Record_) : IncomingItem :=
  match x with
  | inl e => IncomingError e
  | inr record => IncomingID (ID record)
  end.



(** An info map enumerates the failures of an error map: it has an entry
    for the string form of every failing record id, every entry is the
    error of a failing record id with that string form, and where the
    failing ids have distinct string forms every failing id is mapped to
    its own error. *)
Definition enumerates (errMap : gmap RecordID Error)
    (info : gmap string InfoValue) : Prop :=
  (forall recordID e, errMap !! recordID = Some e ->
     is_Some (info !! RecordID_String E recordID)) /\
  (forall key v, info !! key = Some v ->
     exists recordID e, errMap !! recordID = Some e /\
       RecordID_String E recordID = key /\ v = InfoError (error_sky e)) /\
  ((forall id1 id2, is_Some (errMap !! id1) -> is_Some (errMap !! id2) ->
      RecordID_String E id1 = RecordID_String E id2 -> id1 = id2) ->
   forall recordID e, errMap !! recordID = Some e ->
     info !! RecordID_String E recordID = Some (InfoError (error_sky e))).

End Spec.

(** The size of a delete batch: the number of records, or of
    deprecated ids when there is no record. *)
Definition deleteBatchSize (deprecatedIDs : list string)
    (rawRecords : list recordDeleteRecordPayload) : nat :=
  if decide (0 < length rawRecords) then length rawRecords
  else length deprecatedIDs.

(** The fields a predicate references, in depth-first order. *)
Fixpoint referencedFields (p : Predicate) : list (string * string) :=
  match p with
  | Comparison recordType field _ _ => [(recordType, field)]
  | Combinator _ children =>
    (fix all (ps : list Predicate) : list (string * string) :=
       match ps with
       | [] => []
       | child :: rest => (referencedFields child ++ all rest)%list
       end) children
  | FunctionExpr recordType field _ _ => [(recordType, field)]
  end.

(** The test of the walk at a referenced field. *)
Definition unreadable (readable : string -> string -> bool)
    (rf : string * string) : bool :=
  negb (readable rf.1 rf.2).

(** A batch conflicts with a schema when a field of one of its records
    is declared with another type than the one inferred for its value. *)
Definition conflicts (records : list Record_) (schema : Schema) : Prop :=
  exists record field v declared,
    record ∈ records /\ (field, v) ∈ Data record /\
    schema !! (Type_ (ID record), field) = Some declared /\
    declared <> inferType v.

(** The inner functions of the model on a store with snapshot
    transactions: the per-item mutation changes the current content
    only. *)
Definition innerModel {S AuthInfo FieldACL : Type}
    (mFunc : recordModifyFunc (TxState S) AuthInfo FieldACL) : Prop :=
  (exists saveItem,
     mFunc = recordutil.RecordSaveHandler
               (fun req record => onCurrent (saveItem req record))) \/
  (exists deleteItem,
     mFunc = recordutil.RecordDeleteHandler
               (fun req recordID => onCurrent (deleteItem req recordID))).

(** Whether a string holds a slash. *)
Fixpoint hasSlash (s : string) : bool :=
  match s with
  | EmptyString => false
  | String c rest => Ascii.eqb c "/"%char || hasSlash rest
  end.

(** The text of a record id: type, slash, key. *)
Definition formatID (recordID : RecordID) : string :=
  Type_ recordID ++ "/" ++ Key recordID.

(** The number of saved records that [makeResultsFromIncomingItem] reads
    for a list of incoming items: one for every record id that the
    error map does not hold. *)
Fixpoint slotsNeeded (errMap : gmap RecordID Error)
    (items : list IncomingItem) : nat :=
  match items with
  | [] => 0
  | IncomingID recordID :: rest =>
    match errMap !! recordID with
    | Some _ => slotsNeeded errMap rest
    | None => S (slotsNeeded errMap rest)
    end
  | _ :: rest => slotsNeeded errMap rest
  end.

(** Whether a list of incoming items holds de-serialization errors and
    record ids only. *)
Definition knownItem (item : IncomingItem) : bool :=
  match item with
  | IncomingOther _ => false
  | _ => true
  end.

(** What [jsonData.ToMap] stores for a value. *)
Definition storedValue {V : Type} (value : jsonValue V) : jsonValue V :=
  match value with
  | JToMapper written => JMap written
  | _ => value
  end.

(** The element of the result array of a fetch for the outcome of one
    [FetchRecord]. *)
Definition fetchedItem {W AuthInfo FieldACL JSONMap JSON Filter : Type}
    (E : Externals W AuthInfo FieldACL JSONMap JSON Filter)
    (resultFilter : Filter) (recordID : RecordID)
    (outcome : Error + Record_) : ResultItem JSON :=
  match outcome with
  | inl err => ItemError (newSerializedError (RecordID_String E recordID) err)
  | inr record => ItemRecord (JSONResult E resultFilter record)
  end.

End spec.

(* ===================================================================== *)
(** ** Properties of the push router *)
(* ===================================================================== *)

Module push_properties.
Import skyerr push.

Section Push.
Context {W V : Type}.
Implicit Types (s : RouteSender W V) (m : Mapper V) (device : Device) (w : W).

Lemma Send_unregistered s m device w :
  senders s !! DeviceType device = None ->
  RouteSender_Send s m device w =
    (Done (Some (errors_New ("cannot find sender with type = " ++
                             DeviceType device))), w).
Proof. intros Hnone. unfold RouteSender_Send. by rewrite Hnone. Qed.

Lemma Send_registered s m device w sender :
  senders s !! DeviceType device = Some (Some sender) ->
  RouteSender_Send s m device w =
    (Done (Send sender m device w).1, (Send sender m device w).2).
Proof.
  intros Hsome. unfold RouteSender_Send. rewrite Hsome.
  by destruct (Send sender m device w).
Qed.

(** A new router has no sender: every notification is answered by the
    error. *)
Lemma Send_NewRouteSender m device w :
  RouteSender_Send (NewRouteSender : RouteSender W V) m device w =
    (Done (Some (errors_New ("cannot find sender with type = " ++
                             DeviceType device))), w).
Proof. apply Send_unregistered. apply lookup_empty. Qed.

(** After [Route], notifications for the service go to the sender. *)
Lemma Send_after_Route s m device w sender :
  RouteSender_Send (Route s (DeviceType device) (Some sender)) m device w =
    (Done (Send sender m device w).1, (Send sender m device w).2).
Proof. apply Send_registered. simpl. apply lookup_insert_eq. Qed.

Lemma Len_NewRouteSender : Len (NewRouteSender : RouteSender W V) = 0.
Proof. unfold Len. simpl. apply map_size_empty. Qed.

(** C9.  [RouteSender.Send] looks the device's type tag up in the table
    of senders.  When no sender is registered for the tag it returns,
    without panicking and without touching the world, the error
    "cannot find sender with type = " followed by the tag; when a sender
    is registered it delegates to that sender and returns the sender's
    result and the world the sender left. *)
Theorem RouteSender_Send_dispatch s m device w :
  (senders s !! DeviceType device = None ->
   RouteSender_Send s m device w =
     (Done (Some (errors_New ("cannot find sender with type = " ++
                              DeviceType device))), w)) /\
  (forall sender,
     senders s !! DeviceType device = Some (Some sender) ->
     RouteSender_Send s m device w =
       (Done (Send sender m device w).1, (Send sender m device w).2)).
Proof.
  split.
  - apply Send_unregistered.
  - intros sender. apply Send_registered.
Qed.

End Push.
End push_properties.

(* ===================================================================== *)
(** ** Properties of the record handlers *)
(* ===================================================================== *)

Module handler_properties.
Import skyerr skydb recordutil handler spec.

Section Properties.
Context {W AuthInfo FieldACL JSONMap JSON Filter : Type}.
Variable E : Externals W AuthInfo FieldACL JSONMap JSON Filter.
Implicit Types (payload : Payload W AuthInfo FieldACL JSONMap)
  (response : Response JSON) (w : W)
  (req : RecordModifyRequest W AuthInfo FieldACL)
  (resp : RecordModifyResponse)
  (mFunc : recordModifyFunc W AuthInfo FieldACL).

(** *** Validation of a save payload *)

Lemma Validate_step_decode (p : recordSavePayload JSONMap) recordMap :
  recordSavePayload_Validate_step E p recordMap =
  match decodeItem E recordMap with
  | inl e =>
    mkSavePayload (SAtomic p) (RawMaps p) (IncomingItems p ++ [IncomingError e])
      (Records p) (Errs p ++ [e]) false
  | inr record =>
    mkSavePayload (SAtomic p) (RawMaps p)
      (IncomingItems p ++ [IncomingID (ID record)])
      (Records p ++ [record]) (Errs p) (Clean p)
  end.
Proof.
  unfold recordSavePayload_Validate_step, decodeItem.
  by destruct (FromMap E recordMap).
Qed.

Lemma Validate_fold rawMaps : forall atomic raws0 items records errs clean,
  fold_left (recordSavePayload_Validate_step E) rawMaps
    (mkSavePayload atomic raws0 items records errs clean) =
  mkSavePayload atomic raws0
    (items ++ (incomingItem <$> (decodeItem E <$> rawMaps)))
    (records ++ rights (decodeItem E <$> rawMaps))
    (errs ++ lefts (decodeItem E <$> rawMaps))
    (clean && bool_decide (lefts (decodeItem E <$> rawMaps) = [])).
Proof.
  induction rawMaps as [|recordMap rest IH]; intros; simpl.
  - by rewrite !app_nil_r, andb_true_r.
  - rewrite Validate_step_decode. unfold lefts, rights in *.
    destruct (decodeItem E recordMap) as [e|record]; simpl;
      rewrite IH, <- !app_assoc; simpl; [|done].
    by rewrite andb_false_r.
Qed.

Lemma Decode_save data atomic rawMaps p0 :
  DecodeSave E data = Some (atomic, rawMaps) ->
  rawMaps <> [] ->
  recordSavePayload_Decode E p0 data =
    (mkSavePayload atomic rawMaps
       (incomingItem <$> (decodeItem E <$> rawMaps))
       (rights (decodeItem E <$> rawMaps))
       (lefts (decodeItem E <$> rawMaps))
       (bool_decide (lefts (decodeItem E <$> rawMaps) = [])),
     None).
Proof.
  intros Hdec Hne. unfold recordSavePayload_Decode. rewrite Hdec.
  unfold recordSavePayload_Validate, recordSavePayload_ItemLen. simpl.
  destruct (decide (length rawMaps = 0)) as [Hlen|Hlen].
  - by destruct rawMaps.
  - by rewrite Validate_fold.
Qed.

Lemma Decode_save_empty data atomic p0 :
  DecodeSave E data = Some (atomic, []) ->
  (recordSavePayload_Decode E p0 data).2 =
    Some (NewInvalidArgument "expected list of record" ["records"]).
Proof.
  intros Hdec. unfold recordSavePayload_Decode. by rewrite Hdec.
Qed.

Lemma lefts_nil_iff {A B} (l : list (A + B)) :
  lefts l = [] <-> forall a, inl a ∉ l.
Proof.
  induction l as [|[a|b] l IH]; simpl.
  - split; [intros _ a Hin; by apply elem_of_nil in Hin|done].
  - split; [done|]. intros H. exfalso. apply (H a). by left.
  - unfold lefts in *. simpl. rewrite IH. split.
    + intros H a Hin. apply elem_of_cons in Hin as [?|?]; [done|]. by apply (H a).
    + intros H a Hin. apply (H a). by right.
Qed.

(** *** The coordinator without the transaction capability *)


(** C10.  A request whose batch is empty is answered by an
    InvalidArgument error raised by the validation of the payload,
    before any store access or mutation: a save with zero records, a
    fetch with zero ids, a delete with neither records nor ids.  The
    world is returned as it was and the answer depends on no
    collaborator. *)
Theorem empty_batch_is_invalid h payload response w :
  (forall atomic, DecodeSave E (PData payload) = Some (atomic, []) ->
     RecordSaveHandler_Handle E h payload response w =
       (Done (setErr (NewInvalidArgument "expected list of record" ["records"])
                response), w)) /\
  (DecodeFetch E (PData payload) = Some [] ->
     RecordFetchHandler_Handle E payload response w =
       (setErr (NewInvalidArgument "expected list of id" ["ids"]) response,
        w)) /\
  (forall atomic, DecodeDelete E (PData payload) = Some ([], [], atomic) ->
     RecordDeleteHandler_Handle E payload response w =
       (setErr (NewInvalidArgument "expected list of records" ["records"])
          response, w)).
Proof.
  split; [|split].
  - intros atomic Hdec. unfold RecordSaveHandler_Handle, recordSavePayload_Decode.
    rewrite Hdec. done.
  - intros Hdec. unfold RecordFetchHandler_Handle, recordFetchPayload_Decode.
    rewrite Hdec. done.
  - intros atomic Hdec.
    unfold RecordDeleteHandler_Handle, recordDeletePayload_Decode.
    rewrite Hdec. done.
Qed.

(** *** Atomic save of a batch with malformed records *)

Lemma lefts_decode_nonempty rawMaps recordMap msg :
  recordMap ∈ rawMaps -> FromMap E recordMap = inl msg ->
  lefts (decodeItem E <$> rawMaps) <> [].
Proof.
  intros Hin Hbad Hnil.
  apply (proj1 (lefts_nil_iff _) Hnil (NewError InvalidArgument msg)).
  apply list_elem_of_fmap. exists recordMap. split; [|done].
  unfold decodeItem. by rewrite Hbad.
Qed.

(** C3, as amended.  An atomic save batch with at least one record that
    fails de-serialization is answered by a single error and nothing is
    persisted: the world is returned as it was (no record saved, no
    schema extended).  On a writable database for which the result
    filter is built, the error is the InvalidArgument error "fails to
    de-serialize records" whose info lists the de-serialization error of
    every malformed record, in input order. *)
Theorem atomic_save_malformed_rejected h payload response w rawMaps :
  DecodeSave E (PData payload) = Some (true, rawMaps) ->
  (exists recordMap msg,
     recordMap ∈ rawMaps /\ FromMap E recordMap = inl msg) ->
  exists e,
    RecordSaveHandler_Handle E h payload response w =
      (Done (setErr e response), w) /\
    (IsReadOnly (PDatabase payload) = false ->
     (exists resultFilter,
        NewRecordResultFilter E (DBConn payload) (PAuthInfo payload)
          (HasMasterKey payload) w = inr resultFilter) ->
     e = NewErrorWithInfo InvalidArgument "fails to de-serialize records"
           (<["arguments" := InfoString "records"]>
              {[ "errors" := InfoErrors (lefts (decodeItem E <$> rawMaps)) ]})).
Proof.
  intros Hdec (recordMap & msg & Hin & Hbad).
  assert (rawMaps <> []) as Hne by (intros ->; by apply elem_of_nil in Hin).
  pose proof (lefts_decode_nonempty _ _ _ Hin Hbad) as Herrs.
  unfold RecordSaveHandler_Handle.
  rewrite (Decode_save _ _ _ _ Hdec Hne). simpl.
  rewrite bool_decide_eq_false_2 by done. simpl.
  destruct (IsReadOnly (PDatabase payload)).
  { eexists. split; [done|]. by intros ?. }
  destruct (NewRecordResultFilter E _ _ _ w) as [err|resultFilter] eqn:Hfilter.
  { eexists. split; [done|]. by intros _ [? ?]. }
  eexists. split; [done|]. done.
Qed.

(** *** Validation of a delete payload *)

Lemma SplitN_cases s :
  SplitN s = [s] \/
  exists before after,
    SplitN s = [before; after] /\ s = before ++ "/" ++ after.
Proof.
  induction s as [|c rest IH]; simpl; [by left|].
  destruct (Ascii.eqb c "/") eqn:Hc.
  - right. exists "", rest. split; [done|].
    apply Ascii.eqb_eq in Hc. by rewrite Hc.
  - destruct IH as [->|(before & after & -> & Hrest)].
    + by left.
    + right. exists (String c before), after. split; [done|].
      by rewrite Hrest.
Qed.

(** The loop over the deprecated ids, when it ends without error, has
    filled the array from [i] on with the parsed ids, in input order. *)
Lemma recordDeletePayload_Validate_loop_ok rawIDs :
  forall i (recordIDs ids : list RecordID),
  recordDeletePayload_Validate_loop i rawIDs recordIDs = (ids, None) ->
  i + length rawIDs <= length recordIDs ->
  length ids = length recordIDs /\
  (forall j, j < i -> ids !! j = recordIDs !! j) /\
  (forall j rawID, rawIDs !! j = Some rawID ->
     exists type key, SplitN rawID = [type; key] /\
       ids !! (i + j) = Some (mkRecordID type key)).
Proof.
  induction rawIDs as [|rawID rest IH]; intros i recordIDs ids Hloop Hlen;
    simpl in *.
  - injection Hloop as <-. split; [done|]. split; [done|]. by intros j rawID Hj.
  - destruct (decide (length (SplitN rawID) = 1)) as [Hone|Htwo]; [done|].
    destruct (IH _ _ _ Hloop) as (Hl & Hbefore & Hafter).
    { rewrite length_insert. lia. }
    rewrite length_insert in Hl. split; [done|]. split.
    + intros j Hj. rewrite Hbefore by lia. apply list_lookup_insert_ne. lia.
    + intros [|j] rawID' Hj; simpl in Hj.
      * injection Hj as <-.
        destruct (SplitN_cases rawID) as [Hs|(before & after & Hs & _)].
        { by rewrite Hs in Htwo. }
        exists before, after. split; [done|].
        rewrite Nat.add_0_r, Hbefore by lia. rewrite Hs. simpl.
        apply list_lookup_insert_eq. lia.
      * destruct (Hafter j rawID' Hj) as (type & key & Hs & Hid).
        exists type, key. split; [done|]. by rewrite <- Nat.add_succ_comm.
Qed.

Lemma recordDeletePayload_Validate_size deprecatedIDs rawRecords atomic ids0 p :
  recordDeletePayload_Validate
    (mkDeletePayload deprecatedIDs rawRecords atomic ids0) = (p, None) ->
  DAtomic p = atomic /\
  length (parsedRecordIDs p) = deleteBatchSize deprecatedIDs rawRecords.
Proof.
  unfold recordDeletePayload_Validate, deleteBatchSize. simpl.
  destruct (decide (0 < length rawRecords)).
  - intros [= <-]. simpl. by rewrite length_fmap.
  - destruct (decide (0 < length deprecatedIDs)); [|done].
    destruct (recordDeletePayload_Validate_loop 0 deprecatedIDs _)
      as [ids err] eqn:Hloop.
    intros [= <- ->]. simpl. split; [done|].
    destruct (recordDeletePayload_Validate_loop_ok _ _ _ _ Hloop)
      as (Hlen & _).
    { by rewrite length_replicate. }
    by rewrite Hlen, length_replicate.
Qed.

(** *** Non-atomic delete *)

Lemma fold_left_snoc {A B} (f : A -> B) (l : list A) (acc : list B) :
  fold_left (fun (results : list B) x => (results ++ [f x])%list) l acc =
  (acc ++ (f <$> l))%list.
Proof.
  revert acc. induction l as [|x l IH]; intros acc; simpl.
  - by rewrite app_nil_r.
  - by rewrite IH, <- app_assoc.
Qed.

Lemma deleteItems_not_atomic deleteItem req resp w :
  Atomic req = false ->
  recordutil.RecordDeleteHandler deleteItem req resp w =
    (None, (deleteItems (deleteItem req) (RecordIDsToDelete req) resp w).1,
     (deleteItems (deleteItem req) (RecordIDsToDelete req) resp w).2).
Proof.
  intros Hna. unfold recordutil.RecordDeleteHandler. rewrite Hna.
  by destruct (deleteItems _ _ _ _).
Qed.

(** C2, as amended.  A non-atomic delete batch that passes validation,
    on a database that is not read-only, is answered by a result array
    with one entry per record id, in input order: the i-th entry is the
    serialized error of the i-th id when the response maps that id to an
    error, and the tombstone of the i-th id otherwise. *)
Theorem delete_results_follow_input deleteItem payload response w
    deprecatedIDs rawRecords p :
  recordutil_RecordDeleteHandler E = recordutil.RecordDeleteHandler deleteItem ->
  DecodeDelete E (PData payload) = Some (deprecatedIDs, rawRecords, false) ->
  recordDeletePayload_Validate
    (mkDeletePayload deprecatedIDs rawRecords false []) = (p, None) ->
  IsReadOnly (PDatabase payload) = false ->
  exists results resp' w',
    RecordDeleteHandler_Handle E payload response w =
      (setResult results response, w') /\
    length (parsedRecordIDs p) = deleteBatchSize deprecatedIDs rawRecords /\
    length results = deleteBatchSize deprecatedIDs rawRecords /\
    forall i recordID, parsedRecordIDs p !! i = Some recordID ->
      results !! i =
        Some (match ErrMap resp' !! recordID with
              | Some err =>
                ItemError
                  (newSerializedError (RecordID_String E recordID) err)
              | None =>
                ItemDeleted recordID (Key recordID) (Type_ recordID) "record"
              end).
Proof.
  intros Hmodel Hdec Hvalid Hrw.
  destruct (recordDeletePayload_Validate_size _ _ _ _ _ Hvalid)
    as [Hna Hsize].
  unfold RecordDeleteHandler_Handle, recordDeletePayload_Decode.
  rewrite Hdec. simpl. rewrite Hvalid, Hrw, Hna, Hmodel.
  rewrite deleteItems_not_atomic by done. simpl.
  destruct (deleteItems _ _ _ _) as [resp' w'] eqn:Hrun. simpl.
  exists (RecordDeleteHandler_result E resp' <$> parsedRecordIDs p), resp', w'.
  split; [|split; [|split]].
  - by rewrite fold_left_snoc.
  - done.
  - by rewrite length_fmap.
  - intros i recordID Hi. by rewrite list_lookup_fmap, Hi.
Qed.

(** *** The predicate ACL walk *)

Lemma Predicate_nested_ind (P : Predicate -> Prop) :
  (forall recordType field op operand,
     P (Comparison recordType field op operand)) ->
  (forall op children, Forall P children -> P (Combinator op children)) ->
  (forall recordType field name args,
     P (FunctionExpr recordType field name args)) ->
  forall p, P p.
Proof.
  intros Hcmp Hcomb Hfun. fix IH 1.
  intros [recordType field op operand|op children|recordType field name args].
  - apply Hcmp.
  - apply Hcomb. induction children as [|child rest IHrest]; constructor.
    + apply IH.
    + apply IHrest.
  - apply Hfun.
Qed.

Lemma find_app_first {A} (f : A -> bool) (l1 l2 : list A) :
  find f (l1 ++ l2) =
  match find f l1 with Some x => Some x | None => find f l2 end.
Proof.
  induction l1 as [|x l1 IH]; simpl; [done|]. by destruct (f x).
Qed.

Lemma visit_first_unreadable readable p :
  visit readable p = find (unreadable readable) (referencedFields p).
Proof.
  induction p
    as [recordType field op operand|op children IH|recordType field name args]
    using Predicate_nested_ind; simpl.
  - unfold unreadable. simpl. by destruct (readable recordType field).
  - induction IH as [|child rest Hchild _ IHrest]; [done|].
    rewrite Hchild, IHrest, find_app_first.
    by destruct (find (unreadable readable) (referencedFields child)).
  - unfold unreadable. simpl. by destruct (readable recordType field).
Qed.

Lemma visit_denied readable p rf :
  rf ∈ referencedFields p -> readable rf.1 rf.2 = false ->
  exists recordType field,
    visit readable p = Some (recordType, field) /\
    (recordType, field) ∈ referencedFields p /\
    readable recordType field = false.
Proof.
  intros Hin Hdenied. rewrite visit_first_unreadable.
  destruct (find (unreadable readable) (referencedFields p))
    as [[recordType field]|] eqn:Hfind.
  - apply find_some in Hfind as [Hin' Hun]. exists recordType, field.
    split; [done|]. split; [by apply list_elem_of_In|].
    unfold unreadable in Hun. simpl in Hun. by apply negb_true_iff.
  - exfalso. apply list_elem_of_In in Hin.
    pose proof (find_none _ _ Hfind _ Hin) as Hnone.
    unfold unreadable in Hnone. by rewrite Hdenied in Hnone.
Qed.

Lemma visit_allowed readable p :
  (forall rf, rf ∈ referencedFields p -> readable rf.1 rf.2 = true) ->
  visit readable p = None.
Proof.
  intros Hall. rewrite visit_first_unreadable.
  destruct (find (unreadable readable) (referencedFields p)) as [rf|] eqn:Hfind;
    [|done].
  apply find_some in Hfind as [Hin Hun]. apply list_elem_of_In in Hin.
  unfold unreadable in Hun. by rewrite (Hall _ Hin) in Hun.
Qed.

(** C5.  For a parsed query whose field ACL was loaded.  If the
    principal lacks the bypass flag and the predicate references a field
    the principal may not read, the handler answers with a
    PermissionDenied error naming such a field and its record type, and
    the store query is not issued: the world is returned as it was.  If
    the principal lacks the bypass flag and the walk finds every
    referenced field readable, the handler goes on with the execution
    that starts at the store query.  With the bypass flag the walk is
    skipped: the query is executed whatever the ACL says. *)
Theorem query_acl_gate payload response w query fieldACL :
  queryFromRaw E (AuthInfoID payload) (PData payload) = inr query ->
  GetRecordFieldAccess (DBConn payload) w = inr fieldACL ->
  let readable := fun recordType field =>
    Accessible E fieldACL recordType field (PAuthInfo payload) in
  let execute :=
    RecordQueryHandler_execute E payload (mkQueryPayload query)
      {| ViewAsUser := PAuthInfo payload;
         BypassAccessControl := HasMasterKey payload |} response w in
  (HasMasterKey payload = false ->
   (exists rf, rf ∈ referencedFields (QPredicate query) /\
               readable rf.1 rf.2 = false) ->
   exists recordType field,
     (recordType, field) ∈ referencedFields (QPredicate query) /\
     readable recordType field = false /\
     RecordQueryHandler_Handle E payload response w =
       (Done (setErr (NewError PermissionDenied
                        ("Cannot query on field " ++ field ++
                         " of record type " ++ recordType ++
                         " due to Field ACL")) response), w)) /\
  (HasMasterKey payload = false ->
   (forall rf, rf ∈ referencedFields (QPredicate query) ->
               readable rf.1 rf.2 = true) ->
   RecordQueryHandler_Handle E payload response w =
     (Done execute.1, execute.2)) /\
  (HasMasterKey payload = true ->
   RecordQueryHandler_Handle E payload response w =
     (Done execute.1, execute.2)).
Proof.
  intros Hparse Hacl readable execute.
  assert (forall denied,
    (if negb (HasMasterKey payload)
     then queryAccessVisitor_Error E fieldACL (PAuthInfo payload) query
     else None) = denied ->
    RecordQueryHandler_Handle E payload response w =
      match denied with
      | Some err => (Done (setErr err response), w)
      | None => (Done execute.1, execute.2)
      end) as Hhandle.
  { intros denied <-. unfold RecordQueryHandler_Handle, recordQueryPayload_Decode.
    rewrite Hparse. simpl. rewrite Hacl.
    destruct (if negb (HasMasterKey payload) then _ else _); [done|].
    subst execute. by destruct (RecordQueryHandler_execute _ _ _ _ _ _). }
  split; [|split].
  - intros Hnobypass (rf & Hin & Hdenied).
    destruct (visit_denied readable _ rf Hin Hdenied)
      as (recordType & field & Hvisit & Hin' & Hdenied').
    exists recordType, field. split; [done|]. split; [done|].
    rewrite (Hhandle _ eq_refl), Hnobypass. simpl.
    unfold queryAccessVisitor_Error. fold readable. by rewrite Hvisit.
  - intros Hnobypass Hall.
    rewrite (Hhandle _ eq_refl), Hnobypass. simpl.
    unfold queryAccessVisitor_Error. fold readable.
    by rewrite (visit_allowed readable _ Hall).
  - intros Hbypass. by rewrite (Hhandle _ eq_refl), Hbypass.
Qed.

(** *** The schema evolution guard *)

Lemma extendFields_additive recordType fields : forall (schema schema' : Schema),
  extendFields recordType fields schema = inr schema' ->
  forall key declared, schema !! key = Some declared ->
    schema' !! key = Some declared.
Proof.
  induction fields as [|[field v] rest IH]; intros schema schema' Hext key declared Hkey;
    simpl in Hext.
  - by injection Hext as <-.
  - destruct (schema !! (recordType, field)) as [d|] eqn:Hfield.
    + destruct (decide (d = inferType v)); [|done]. by eapply IH.
    + eapply IH; [done|]. rewrite lookup_insert_ne; [done|].
      intros <-. by rewrite Hfield in Hkey.
Qed.

Lemma extendFields_conflict recordType fields : forall (schema : Schema) field v declared,
  (field, v) ∈ fields ->
  schema !! (recordType, field) = Some declared ->
  declared <> inferType v ->
  exists conflicting, extendFields recordType fields schema = inl conflicting.
Proof.
  induction fields as [|[field0 v0] rest IH];
    intros schema field v declared Hin Hdecl Hne; simpl.
  - by apply elem_of_nil in Hin.
  - apply elem_of_cons in Hin as [Heq|Hin].
    + injection Heq as <- <-. rewrite Hdecl.
      destruct (decide (declared = inferType v)); [done|]. by eexists.
    + destruct (schema !! (recordType, field0)) as [d|] eqn:Hfield0.
      * destruct (decide (d = inferType v0)); [|by eexists]. by eapply IH.
      * eapply IH; [done| |done]. rewrite lookup_insert_ne; [done|].
        intros [= <-]. by rewrite Hfield0 in Hdecl.
Qed.

Lemma extendRecords_conflict records : forall (schema : Schema),
  conflicts records schema ->
  exists conflicting, extendRecords records schema = inl conflicting.
Proof.
  induction records as [|record0 rest IH];
    intros schema (record & field & v & declared & Hin & Hfield & Hdecl & Hne).
  - by apply elem_of_nil in Hin.
  - simpl.
    destruct (extendFields (Type_ (ID record0)) (Data record0) schema)
      as [conflicting|schema'] eqn:Hext; [by eexists|].
    apply elem_of_cons in Hin as [->|Hin].
    + destruct (extendFields_conflict _ _ _ _ _ _ Hfield Hdecl Hne) as [c Hc].
      by rewrite Hext in Hc.
    + apply IH. exists record, field, v, declared.
      split; [done|]. split; [done|]. split; [|done].
      by eapply extendFields_additive.
Qed.

Lemma ExtendRecordSchema_conflict (getSchema : W -> Schema) setSchema records w :
  conflicts records (getSchema w) ->
  exists field,
    recordutil.ExtendRecordSchema getSchema setSchema records w =
      ((false,
        Some (error_sky (NewError IncompatibleSchema
                           ("conflicting schema for field " ++ field)))), w).
Proof.
  intros Hconflict. destruct (extendRecords_conflict _ _ Hconflict) as [field Hext].
  exists field. unfold recordutil.ExtendRecordSchema. by rewrite Hext.
Qed.

(** C7, as amended.  A save batch in which the value of a field
    conflicts with the declared type of that field is rejected as a
    whole before any record is saved, the world, stored schema included,
    being returned as it was.  The error is the IncompatibleSchema error
    naming a conflicting field when the batch reaches the schema
    extension: writable database, result filter built and, for an atomic
    batch, no de-serialization error. *)
Theorem conflicting_batch_rejected (getSchema : W -> Schema) setSchema
    h payload response w atomic rawMaps :
  (forall db, recordutil_ExtendRecordSchema E db =
              recordutil.ExtendRecordSchema getSchema setSchema) ->
  DecodeSave E (PData payload) = Some (atomic, rawMaps) ->
  conflicts (rights (decodeItem E <$> rawMaps)) (getSchema w) ->
  exists e,
    RecordSaveHandler_Handle E h payload response w =
      (Done (setErr e response), w) /\
    (IsReadOnly (PDatabase payload) = false ->
     (exists resultFilter,
        NewRecordResultFilter E (DBConn payload) (PAuthInfo payload)
          (HasMasterKey payload) w = inr resultFilter) ->
     (atomic = true -> lefts (decodeItem E <$> rawMaps) = []) ->
     exists field,
       e = NewError IncompatibleSchema
             ("conflicting schema for field " ++ field)).
Proof.
  intros Hmodel Hdec Hconflict.
  assert (rawMaps <> []) as Hne.
  { intros ->. destruct Hconflict as (record & _ & _ & _ & Hin & _).
    by apply elem_of_nil in Hin. }
  destruct (ExtendRecordSchema_conflict getSchema setSchema _ _ Hconflict)
    as [field Hext].
  unfold RecordSaveHandler_Handle.
  rewrite (Decode_save _ _ _ _ Hdec Hne). simpl.
  destruct (IsReadOnly (PDatabase payload)).
  { eexists. split; [done|]. by intros ?. }
  destruct (NewRecordResultFilter E _ _ _ w) as [err|resultFilter] eqn:Hfilter.
  { eexists. split; [done|]. by intros _ [? ?]. }
  rewrite Hmodel, Hext.
  destruct atomic; simpl.
  - destruct (bool_decide (lefts (decodeItem E <$> rawMaps) = [])) eqn:Hclean;
      simpl.
    + eexists. split; [done|]. intros _ _ _. by exists field.
    + eexists. split; [done|]. intros _ _ Hc.
      apply bool_decide_eq_false in Hclean. by destruct Hclean, Hc.
  - eexists. split; [done|]. intros _ _ _. by exists field.
Qed.

(** *** Non-atomic save *)











(** *** The aggregate error of the coordinator *)

Lemma info_enumerates (errMap : gmap RecordID Error) :
  enumerates E errMap
    (map_fold
       (fun recordID err (info : gmap string InfoValue) =>
          <[RecordID_String E recordID := InfoError (error_sky err)]> info)
       ∅ errMap).
Proof.
  apply (map_fold_weak_ind (fun info m => enumerates E m info)).
  - split; [|split].
    + intros recordID e Hin. by rewrite lookup_empty in Hin.
    + intros key v Hin. by rewrite lookup_empty in Hin.
    + intros _ recordID e Hin. by rewrite lookup_empty in Hin.
  - intros i x m info Hfresh (Hkeys & Hvalues & Hinj). split; [|split].
    + intros recordID e Hin.
      destruct (decide (RecordID_String E i = RecordID_String E recordID))
        as [Heq|Hne].
      * rewrite Heq, lookup_insert_eq. by eexists.
      * rewrite lookup_insert_ne by done.
        destruct (decide (i = recordID)) as [->|Hne']; [done|].
        rewrite lookup_insert_ne in Hin by done. by eapply Hkeys.
    + intros key v Hin.
      destruct (decide (RecordID_String E i = key)) as [Heq|Hne].
      * rewrite Heq, lookup_insert_eq in Hin. injection Hin as <-.
        exists i, x. by rewrite lookup_insert_eq.
      * rewrite lookup_insert_ne in Hin by done.
        destruct (Hvalues key v Hin) as (recordID & e & Hlookup & Hkey & Hv).
        exists recordID, e. split; [|done].
        rewrite lookup_insert_ne; [done|]. intros ->.
        by rewrite Hfresh in Hlookup.
    + intros Hdistinct recordID e Hin.
      destruct (decide (i = recordID)) as [->|Hne].
      * rewrite lookup_insert_eq in Hin. injection Hin as ->.
        by rewrite lookup_insert_eq.
      * rewrite lookup_insert_ne in Hin by done.
        rewrite lookup_insert_ne.
        -- apply Hinj; [|done]. intros id1 id2 H1 H2 Heq.
           apply Hdistinct; [| |done].
           ++ destruct (decide (i = id1)) as [->|?];
                [by rewrite lookup_insert_eq|by rewrite lookup_insert_ne].
           ++ destruct (decide (i = id2)) as [->|?];
                [by rewrite lookup_insert_eq|by rewrite lookup_insert_ne].
        -- intros Heq. apply Hne. apply Hdistinct; [| |done].
           ++ by rewrite lookup_insert_eq.
           ++ by rewrite lookup_insert_ne, Hin.
Qed.

Lemma atomicModifyFunc_outcome req0 resp0 mFunc req resp w tx txErr resp' w' :
  AsTransactional (Db req) = Some tx ->
  WithTransaction tx
    (fun resp w =>
       let '(e, resp', w') := mFunc req resp w in (as_error e, resp', w'))
    resp w = (txErr, resp', w') ->
  ErrMap resp' <> ∅ \/ txErr <> None ->
  exists message info,
    atomicModifyFunc E req0 resp0 mFunc req resp w =
      (Some (NewErrorWithInfo AtomicOperationFailure message info),
       resp', w') /\
    ((ErrMap resp' <> ∅ /\ enumerates E (ErrMap resp') info) \/
     (ErrMap resp' = ∅ /\
      exists e, txErr = Some e /\ info = {[ "innerError" := InfoError e ]})).
Proof.
  intros Htx Hrun Hfail. unfold atomicModifyFunc. rewrite Htx, Hrun.
  destruct (decide (0 < size (ErrMap resp'))) as [Hsome|Hnone].
  - eexists _, _. split; [done|]. left. split.
    + intros Hempty. rewrite Hempty, map_size_empty in Hsome. lia.
    + apply info_enumerates.
  - assert (ErrMap resp' = ∅) as Hempty.
    { apply map_size_empty_iff. lia. }
    destruct Hfail as [?|Hfail]; [done|].
    destruct txErr as [e|]; [|done].
    eexists _, _. split; [done|]. right. split; [done|]. by exists e.
Qed.

(** *** The handlers without the transaction capability *)

(** An atomic delete request that passes validation, on a writable
    database without the transaction capability, is answered by the
    NotSupported error of the coordinator and leaves the world as it
    was. *)
Lemma delete_atomic_without_transactions payload response w p :
  recordDeletePayload_Decode E recordDeletePayload_zero (PData payload) =
    (p, None) ->
  DAtomic p = true ->
  IsReadOnly (PDatabase payload) = false ->
  AsTransactional (PDatabase payload) = None ->
  RecordDeleteHandler_Handle E payload response w =
    (setErr (NewError NotSupported
               "database impl does not support transaction") response, w).
Proof.
  intros Hdec Hatomic Hrw Hno. unfold RecordDeleteHandler_Handle.
  rewrite Hdec, Hrw, Hatomic. unfold atomicModifyFunc. simpl. by rewrite Hno.
Qed.

(** An atomic save request that reaches the coordinator, on a database
    without the transaction capability, is answered by the NotSupported
    error; the world is the one the schema extension left. *)
Lemma save_atomic_without_transactions h payload response w rawMaps
    resultFilter schemaUpdated w1 :
  DecodeSave E (PData payload) = Some (true, rawMaps) ->
  rawMaps <> [] ->
  lefts (decodeItem E <$> rawMaps) = [] ->
  IsReadOnly (PDatabase payload) = false ->
  NewRecordResultFilter E (DBConn payload) (PAuthInfo payload)
    (HasMasterKey payload) w = inr resultFilter ->
  recordutil_ExtendRecordSchema E (PDatabase payload)
    (rights (decodeItem E <$> rawMaps)) w = ((schemaUpdated, None), w1) ->
  AsTransactional (PDatabase payload) = None ->
  RecordSaveHandler_Handle E h payload response w =
    (Done (setErr (NewError NotSupported
                     "database impl does not support transaction") response),
     w1).
Proof.
  intros Hdec Hne Hclean Hrw Hfilter Hext Hno. unfold RecordSaveHandler_Handle.
  rewrite (Decode_save _ _ _ _ Hdec Hne), Hrw, Hfilter, Hclean. simpl.
  rewrite Hext. unfold atomicModifyFunc. simpl. by rewrite Hno.
Qed.

End Properties.

(** *** Atomic batches on a store with snapshot transactions *)

Section Snapshot.
Context {S AuthInfo FieldACL JSONMap JSON Filter : Type}.
Variable E : Externals (TxState S) AuthInfo FieldACL JSONMap JSON Filter.
Variables beginFault commitFault : S -> option error.
Implicit Types (payload : Payload (TxState S) AuthInfo FieldACL JSONMap)
  (response : Response JSON) (s : S)
  (req : RecordModifyRequest (TxState S) AuthInfo FieldACL)
  (resp : RecordModifyResponse).

Lemma saveItems_onCurrent (saveItem : Record_ -> S -> (Error + Record_) * S)
    records : forall resp s snap,
  saveItems (fun record => onCurrent (saveItem record)) records resp
    (mkTxState s snap) =
  ((saveItems saveItem records resp s).1,
   mkTxState (saveItems saveItem records resp s).2 snap).
Proof.
  induction records as [|record rest IH]; intros resp s snap; simpl; [done|].
  unfold onCurrent at 1. simpl.
  destruct (saveItem record s) as [[e|saved] s1]; by rewrite IH.
Qed.

Lemma deleteItems_onCurrent (deleteItem : RecordID -> S -> option Error * S)
    ids : forall resp s snap,
  deleteItems (fun recordID => onCurrent (deleteItem recordID)) ids resp
    (mkTxState s snap) =
  ((deleteItems deleteItem ids resp s).1,
   mkTxState (deleteItems deleteItem ids resp s).2 snap).
Proof.
  induction ids as [|recordID rest IH]; intros resp s snap; simpl; [done|].
  unfold onCurrent at 1. simpl.
  destruct (deleteItem recordID s) as [[e|] s1]; by rewrite IH.
Qed.

(** A transaction around a function that changes the current content
    only: unless everything succeeds, the content is what it was. *)
Lemma WithTransaction_snapshot {A : Type}
    (do : A -> TxState S -> option error * A * TxState S) (a : A) s
    inner a' s' :
  do a (mkTxState s (Some s)) = (inner, a', mkTxState s' (Some s)) ->
  WithTransaction (snapshotTx beginFault commitFault) do a (mkTxState s None) =
  match beginFault s with
  | Some e => (Some e, a, mkTxState s None)
  | None =>
    match inner with
    | Some e => (Some e, a', mkTxState s None)
    | None =>
      match commitFault s' with
      | Some e => (Some e, a', mkTxState s None)
      | None => (None, a', mkTxState s' None)
      end
    end
  end.
Proof.
  intros Hdo. unfold WithTransaction. simpl. unfold snapshotBegin. simpl.
  destruct (beginFault s) as [e|]; [done|]. rewrite Hdo.
  destruct inner as [e|]; [done|].
  simpl. unfold snapshotCommit. simpl. by destruct (commitFault s').
Qed.

(** The inner functions of the model fail in an atomic batch as soon as
    an item failed. *)
Lemma innerModel_shape mFunc req resp s snap :
  innerModel mFunc ->
  exists e resp' s',
    mFunc req resp (mkTxState s snap) = (e, resp', mkTxState s' snap) /\
    (Atomic req = true -> ErrMap resp' <> ∅ -> e <> None).
Proof.
  intros [[saveItem ->]|[deleteItem ->]].
  - unfold recordutil.RecordSaveHandler. rewrite saveItems_onCurrent.
    destruct (saveItems (saveItem req) (RecordsToSave req) resp s)
      as [resp' s'] eqn:Hrun. simpl.
    destruct (Atomic req && bool_decide (ErrMap resp' ≠ ∅)) eqn:Hcond;
      eexists _, resp', s'; (split; [reflexivity|]); intros Ha Hne; [done|].
    by rewrite Ha, bool_decide_eq_true_2 in Hcond.
  - unfold recordutil.RecordDeleteHandler. rewrite deleteItems_onCurrent.
    destruct (deleteItems (deleteItem req) (RecordIDsToDelete req) resp s)
      as [resp' s'] eqn:Hrun. simpl.
    destruct (Atomic req && bool_decide (ErrMap resp' ≠ ∅)) eqn:Hcond;
      eexists _, resp', s'; (split; [reflexivity|]); intros Ha Hne; [done|].
    by rewrite Ha, bool_decide_eq_true_2 in Hcond.
Qed.

Lemma atomic_failure_restores mFunc req resp s txErr resp' w' :
  innerModel mFunc ->
  Atomic req = true ->
  WithTransaction (snapshotTx beginFault commitFault)
    (fun resp w =>
       let '(e, resp', w') := mFunc req resp w in (as_error e, resp', w'))
    resp (mkTxState s None) = (txErr, resp', w') ->
  ErrMap resp' <> ∅ \/ txErr <> None ->
  w' = mkTxState s None.
Proof.
  intros Hmodel Hatomic Hrun Hfail.
  destruct (innerModel_shape mFunc req resp s (Some s) Hmodel)
    as (e & resp1 & s1 & Hinner & Hcontract).
  rewrite (WithTransaction_snapshot _ resp s (as_error e) resp1 s1) in Hrun
    by by rewrite Hinner.
  destruct (beginFault s); [by injection Hrun as _ _ <-|].
  destruct e as [e|]; simpl in Hrun; [by injection Hrun as _ _ <-|].
  destruct (commitFault s1); [by injection Hrun as _ _ <-|].
  injection Hrun as <- <- <-.
  destruct Hfail as [Hne|?]; [|done]. by destruct (Hcontract Hatomic Hne).
Qed.


Lemma atomicModifyFunc_success req0 resp0 mFunc req resp w tx resp' w' :
  AsTransactional (Db req) = Some tx ->
  WithTransaction tx
    (fun resp w =>
       let '(e, resp', w') := mFunc req resp w in (as_error e, resp', w'))
    resp w = (None, resp', w') ->
  ErrMap resp' = ∅ ->
  atomicModifyFunc E req0 resp0 mFunc req resp w = (None, resp', w').
Proof.
  intros Htx Hrun Hempty. unfold atomicModifyFunc. rewrite Htx, Hrun, Hempty.
  by rewrite map_size_empty.
Qed.

(** C6.  The schema extension runs before the coordinator opens the
    transaction, and outside it.  When an atomic save batch reaches the
    extension, the extension succeeds and leaves the content [s1], and
    the save then fails, the handler answers with the
    AtomicOperationFailure error and the content of the store is exactly
    [s1]: the rows are rolled back, the extended schema stays. *)
Theorem schema_extension_survives_rollback extend h payload response s
    rawMaps resultFilter schemaUpdated s1 r e w' :
  innerModel (recordutil_RecordSaveHandler E) ->
  (forall records w,
     recordutil_ExtendRecordSchema E (PDatabase payload) records w =
       onCurrent (extend records) w) ->
  AsTransactional (PDatabase payload) =
    Some (snapshotTx beginFault commitFault) ->
  IsReadOnly (PDatabase payload) = false ->
  NewRecordResultFilter E (DBConn payload) (PAuthInfo payload)
    (HasMasterKey payload) (mkTxState s None) = inr resultFilter ->
  DecodeSave E (PData payload) = Some (true, rawMaps) ->
  rawMaps <> [] ->
  lefts (decodeItem E <$> rawMaps) = [] ->
  extend (rights (decodeItem E <$> rawMaps)) s = ((schemaUpdated, None), s1) ->
  Err response = None ->
  RecordSaveHandler_Handle E h payload response (mkTxState s None) =
    (Done r, w') ->
  Err r = Some e ->
  w' = mkTxState s1 None /\ Code e = AtomicOperationFailure.
Proof.
  intros Hmodel Hextend Htx Hrw Hfilter Hdec Hne Hclean Hext Hfresh Hhandle
    Herr.
  unfold RecordSaveHandler_Handle in Hhandle.
  rewrite (Decode_save E _ _ _ _ Hdec Hne) in Hhandle.
  rewrite Hrw, Hfilter, Hclean in Hhandle. simpl in Hhandle.
  rewrite Hextend in Hhandle. unfold onCurrent in Hhandle. simpl in Hhandle.
  rewrite Hext in Hhandle.
  set (p := mkSavePayload true rawMaps _ _ _ _) in Hhandle.
  set (req := RecordSaveHandler_request payload p) in Hhandle.
  destruct (WithTransaction (snapshotTx beginFault commitFault)
              (fun resp w =>
                 let '(e, resp', w') :=
                   recordutil_RecordSaveHandler E req resp w in
                 (as_error e, resp', w'))
              (mkResponse ∅ []) (mkTxState s1 None))
    as [[txErr resp'] w1] eqn:Hrun.
  destruct (decide (ErrMap resp' = ∅)) as [Hempty|Hsome];
    [destruct txErr as [txErr|]|].
  - assert (ErrMap resp' <> ∅ \/ Some txErr <> None) as Hfail by by right.
    pose proof (atomic_failure_restores _ req _ _ _ _ _ Hmodel eq_refl Hrun
                  Hfail) as ->.
    destruct (atomicModifyFunc_outcome E req (mkResponse ∅ []) _ req _ _ _ _
                _ _ Htx Hrun Hfail)
      as (message & info & Hresult & _).
    rewrite Hresult in Hhandle. injection Hhandle as <- <-.
    simpl in Herr. by injection Herr as <-.
  - rewrite (atomicModifyFunc_success req (mkResponse ∅ []) _ req _ _ _ _ _
               Htx Hrun Hempty) in Hhandle.
    destruct (makeResultsFromIncomingItem E _ resp' resultFilter [])
      as [results|msg]; [|done].
    assert (Err r = None) as Hnone.
    { destruct schemaUpdated, (EventSender h); injection Hhandle as <- _;
        done. }
    by rewrite Hnone in Herr.
  - pose proof (atomic_failure_restores _ req _ _ _ _ _ Hmodel eq_refl Hrun
                  (or_introl Hsome)) as ->.
    destruct (atomicModifyFunc_outcome E req (mkResponse ∅ []) _ req _ _ _ _
                _ _ Htx Hrun (or_introl Hsome))
      as (message & info & Hresult & _).
    rewrite Hresult in Hhandle. injection Hhandle as <- <-.
    simpl in Herr. by injection Herr as <-.
Qed.

End Snapshot.

End handler_properties.

(* ===================================================================== *)
(** ** The properties on the concrete store *)
(* ===================================================================== *)

Module concrete.
Import skyerr skydb recordutil handler spec example handler_properties.

(** *** The embedding at work *)

Example SplitN_type_key : SplitN "note/1" = ["note"; "1"].
Proof. reflexivity. Qed.

Example SplitN_first_slash : SplitN "a/b/c" = ["a"; "b/c"].
Proof. reflexivity. Qed.

Example SplitN_no_slash : SplitN "note" = ["note"].
Proof. reflexivity. Qed.

Example fetch_ids_parsed :
  recordFetchPayload_Validate (mkFetchPayload [] ["note/1"; "note/2"]) =
    (mkFetchPayload [note1; note2] ["note/1"; "note/2"], None).
Proof. reflexivity. Qed.

(** An id without a slash stops the validation; the ids parsed so far
    stay in the array. *)
Example fetch_ids_rejected :
  recordFetchPayload_Validate (mkFetchPayload [] ["note/1"; "oops"; "note/2"]) =
    (mkFetchPayload [note1; mkRecordID "" ""; mkRecordID "" ""]
       ["note/1"; "oops"; "note/2"],
     Some (NewInvalidArgument "invalid id format: oops" ["ids"])).
Proof. reflexivity. Qed.

(** The records of a delete payload take precedence over the deprecated
    ids. *)
Example delete_records_first :
  recordDeletePayload_Validate
    (mkDeletePayload ["note/9"] [{| PType := "note"; PKey := "1" |}] true []) =
    (mkDeletePayload ["note/9"] [{| PType := "note"; PKey := "1" |}] true
       [note1], None).
Proof. reflexivity. Qed.

Example delete_deprecated_ids :
  recordDeletePayload_Validate (mkDeletePayload ["note/1"; "note/2"] [] false []) =
    (mkDeletePayload ["note/1"; "note/2"] [] false [note1; note2], None).
Proof. reflexivity. Qed.

(** A non-atomic save of two records and a malformed one on the empty
    store: the records are saved, the malformed one is answered by its
    error, the schema is extended. *)
Example save_non_atomic :
  RecordSaveHandler_Handle externals saveHandler
    (payload (SaveData false [noteA; malformed; noteC]) plainDatabase [] false)
    noResponse emptyWorld =
  (Done (setResult
           [ItemRecord recordA;
            ItemError (newSerializedError ""
                         (NewError InvalidArgument "invalid record id: note"));
            ItemRecord recordC] noResponse),
   mkTxState
     (mkStore
        {[ ("note", "locked") := TBoolean; ("note", "title") := TString ]}
        {[ note1 := recordA; note2 := recordC ]})
     None).
Proof. vm_compute. reflexivity. Qed.

(** An atomic save that succeeds commits. *)
Example save_atomic_commits :
  RecordSaveHandler_Handle externals saveHandler
    (payload (SaveData true [noteB; noteC]) txDatabase [] false)
    noResponse emptyWorld =
  (Done (setResult [ItemRecord recordB; ItemRecord recordC] noResponse),
   mkTxState
     (mkStore {[ ("note", "title") := TString ]}
        {[ note1 := recordB; note2 := recordC ]})
     None).
Proof. vm_compute. reflexivity. Qed.

(** A delete of a locked record and of a missing one. *)
Example delete_non_atomic :
  RecordDeleteHandler_Handle externals
    (payload deleteBatch plainDatabase [] false) noResponse
    (mkTxState lockedStore None) =
  (setResult
     [ItemError (newSerializedError "note/1" lockedError);
      ItemError (newSerializedError "note/2"
                   (NewError UnexpectedError "record not found"))]
     noResponse,
   mkTxState lockedStore None).
Proof. vm_compute. reflexivity. Qed.

(** A query on readable fields is run on the store. *)
Example query_allowed :
  RecordQueryHandler_Handle externals
    (payload (QueryData secretQuery) txDatabase [] false) noResponse
    (mkTxState lockedStore None) =
  (Done (setResult [ItemRecord recordA] noResponse),
   mkTxState lockedStore None).
Proof. vm_compute. reflexivity. Qed.

(** The same query by a principal who may not read [note.secret]. *)
Example query_denied :
  RecordQueryHandler_Handle externals
    (payload (QueryData secretQuery) txDatabase [("note", "secret")] false)
    noResponse (mkTxState lockedStore None) =
  (Done (setErr
           (NewError PermissionDenied
              "Cannot query on field secret of record type note due to Field ACL")
           noResponse),
   mkTxState lockedStore None).
Proof. vm_compute. reflexivity. Qed.

(** *** The properties at concrete inputs *)


(** On a read-only database a non-atomic delete batch of two ids passes
    validation and is answered without a result array. *)
Lemma delete_read_only_counterexample :
  let request := payload deleteBatch readOnlyDatabase [] false in
  let answer :=
    (RecordDeleteHandler_Handle externals request noResponse
       (mkTxState lockedStore None)).1 in
  recordDeletePayload_Decode externals recordDeletePayload_zero
    (PData request) = (deletePayload, None) /\
  DAtomic deletePayload = false /\
  Result answer = None /\
  ~ (exists results, Result answer = Some results /\ length results = 2).
Proof.
  split; [reflexivity|]. split; [reflexivity|]. split; [reflexivity|].
  intros (results & Hresult & _). vm_compute in Hresult. discriminate.
Defined.

(** The same batch addressed to a writable database. *)
Lemma delete_results_follow_input_witness :
  let request := payload deleteBatch plainDatabase [] false in
  let rawRecords :=
    [{| PType := "note"; PKey := "1" |}; {| PType := "note"; PKey := "2" |}] in
  recordutil_RecordDeleteHandler externals =
    recordutil.RecordDeleteHandler
      (fun _ recordID => onCurrent (deleteItem recordID)) /\
  DecodeDelete externals (PData request) = Some ([], rawRecords, false) /\
  recordDeletePayload_Validate (mkDeletePayload [] rawRecords false []) =
    (deletePayload, None) /\
  IsReadOnly (PDatabase request) = false /\
  exists results resp' w',
    RecordDeleteHandler_Handle externals request noResponse
      (mkTxState lockedStore None) = (setResult results noResponse, w') /\
    length (parsedRecordIDs deletePayload) = deleteBatchSize [] rawRecords /\
    length results = deleteBatchSize [] rawRecords /\
    forall i recordID, parsedRecordIDs deletePayload !! i = Some recordID ->
      results !! i =
        Some (match ErrMap resp' !! recordID with
              | Some err =>
                ItemError
                  (newSerializedError (RecordID_String externals recordID) err)
              | None =>
                ItemDeleted recordID (Key recordID) (Type_ recordID) "record"
              end).
Proof.
  intros request rawRecords.
  split; [reflexivity|]. split; [reflexivity|]. split; [reflexivity|].
  split; [reflexivity|].
  apply (delete_results_follow_input externals
           (fun _ recordID => onCurrent (deleteItem recordID)) request
           noResponse (mkTxState lockedStore None) [] rawRecords
           deletePayload);
    reflexivity.
Defined.

(** An atomic save of a valid and a malformed record: the single error
    is InvalidArgument, not AtomicOperationFailure. *)
Lemma atomic_save_malformed_counterexample :
  let request := payload (SaveData true [noteC; malformed]) txDatabase [] false in
  let answer :=
    (RecordSaveHandler_Handle externals saveHandler request noResponse
       emptyWorld).1 in
  (exists e, answer = Done (setErr e noResponse) /\ Code e = InvalidArgument) /\
  ~ (exists r e, answer = Done r /\ Err r = Some e /\
                 Code e = AtomicOperationFailure).
Proof.
  split.
  - eexists. split; reflexivity.
  - intros (r & e & Hanswer & Herr & Hcode). vm_compute in Hanswer.
    injection Hanswer as <-. simpl in Herr. injection Herr as <-.
    discriminate.
Defined.

(** The rejection of the same batch, with the errors it lists. *)
Lemma atomic_save_malformed_rejected_witness :
  let request := payload (SaveData true [noteC; malformed]) txDatabase [] false in
  DecodeSave externals (PData request) = Some (true, [noteC; malformed]) /\
  (exists recordMap msg,
     recordMap ∈ [noteC; malformed] /\
     handler.FromMap externals recordMap = inl msg) /\
  exists e,
    RecordSaveHandler_Handle externals saveHandler request noResponse
      emptyWorld = (Done (setErr e noResponse), emptyWorld) /\
    (IsReadOnly (PDatabase request) = false ->
     (exists resultFilter,
        NewRecordResultFilter externals (DBConn request) (PAuthInfo request)
          (HasMasterKey request) emptyWorld = inr resultFilter) ->
     e = NewErrorWithInfo InvalidArgument "fails to de-serialize records"
           (<["arguments" := InfoString "records"]>
              {[ "errors" :=
                   InfoErrors
                     (lefts (decodeItem externals <$> [noteC; malformed])) ]})).
Proof.
  intros request.
  assert (exists recordMap msg,
            recordMap ∈ [noteC; malformed] /\
            handler.FromMap externals recordMap = inl msg) as Hbad.
  { exists malformed, "invalid record id: note". split; [|reflexivity].
    right. left. }
  split; [reflexivity|]. split; [exact Hbad|].
  apply (atomic_save_malformed_rejected externals saveHandler request
           noResponse emptyWorld [noteC; malformed]); [reflexivity|exact Hbad].
Defined.



(** The gate on a query that compares the unreadable field
    [note.secret]. *)
Lemma query_acl_gate_witness :
  let request :=
    payload (QueryData secretQuery) txDatabase [("note", "secret")] false in
  let readable := fun recordType field =>
    Accessible externals [("note", "secret")] recordType field
      (PAuthInfo request) in
  let execute :=
    RecordQueryHandler_execute externals request (mkQueryPayload secretQuery)
      {| ViewAsUser := PAuthInfo request;
         BypassAccessControl := HasMasterKey request |} noResponse
      emptyWorld in
  queryFromRaw externals (AuthInfoID request) (PData request) =
    inr secretQuery /\
  GetRecordFieldAccess (DBConn request) emptyWorld =
    inr [("note", "secret")] /\
  (HasMasterKey request = false ->
   (exists rf, rf ∈ referencedFields (QPredicate secretQuery) /\
               readable rf.1 rf.2 = false) ->
   exists recordType field,
     (recordType, field) ∈ referencedFields (QPredicate secretQuery) /\
     readable recordType field = false /\
     RecordQueryHandler_Handle externals request noResponse emptyWorld =
       (Done (setErr (NewError PermissionDenied
                        ("Cannot query on field " ++ field ++
                         " of record type " ++ recordType ++
                         " due to Field ACL")) noResponse), emptyWorld)) /\
  (HasMasterKey request = false ->
   (forall rf, rf ∈ referencedFields (QPredicate secretQuery) ->
               readable rf.1 rf.2 = true) ->
   RecordQueryHandler_Handle externals request noResponse emptyWorld =
     (Done execute.1, execute.2)) /\
  (HasMasterKey request = true ->
   RecordQueryHandler_Handle externals request noResponse emptyWorld =
     (Done execute.1, execute.2)).
Proof.
  intros request readable execute.
  split; [reflexivity|]. split; [reflexivity|].
  apply (query_acl_gate externals request noResponse emptyWorld secretQuery
           [("note", "secret")]); reflexivity.
Defined.

Lemma extend_onCurrent records (w : World) :
  recordutil_ExtendRecordSchema externals (PDatabase
    (payload (SaveData true [noteB; noteC]) txDatabase [] false)) records w =
  onCurrent (extend records) w.
Proof.
  destruct w as [s snap]. unfold onCurrent, extend. simpl.
  unfold recordutil.ExtendRecordSchema, getSchema, setSchema. simpl.
  destruct (extendRecords records (schema s)) as [field|schema']; [done|].
  destruct (decide (schema' = schema s)); [|done]. by destruct s.
Qed.

(** An atomic save that introduces the field [note.title] and fails on
    a locked record: the rows are the old ones, the schema is the
    extended one. *)
Lemma schema_extension_survives_rollback_witness :
  let request := payload (SaveData true [noteB; noteC]) txDatabase [] false in
  let answer :=
    setErr
      (NewErrorWithInfo AtomicOperationFailure
         "Atomic Operation rolled back due to one or more errors"
         {[ "note/1" := InfoError (error_sky lockedError) ]})
      noResponse in
  RecordSaveHandler_Handle externals saveHandler request noResponse
    (mkTxState lockedStore None) =
    (Done answer, mkTxState lockedStoreExtended None) /\
  extend (rights (decodeItem externals <$> [noteB; noteC])) lockedStore =
    ((true, None), lockedStoreExtended) /\
  mkTxState lockedStoreExtended None = mkTxState lockedStoreExtended None /\
  Code (NewErrorWithInfo AtomicOperationFailure
          "Atomic Operation rolled back due to one or more errors"
          {[ "note/1" := InfoError (error_sky lockedError) ]}) =
    AtomicOperationFailure.
Proof.
  intros request answer.
  assert (RecordSaveHandler_Handle externals saveHandler request noResponse
            (mkTxState lockedStore None) =
          (Done answer, mkTxState lockedStoreExtended None)) as Hhandle.
  { vm_compute. reflexivity. }
  assert (extend (rights (decodeItem externals <$> [noteB; noteC]))
            lockedStore = ((true, None), lockedStoreExtended)) as Hext.
  { vm_compute. reflexivity. }
  split; [exact Hhandle|]. split; [exact Hext|].
  apply (schema_extension_survives_rollback externals noFault noFault extend
           saveHandler request noResponse lockedStore [noteB; noteC] tt true
           lockedStoreExtended answer _ (mkTxState lockedStoreExtended None)).
  - left. exists (fun _ record => saveItem record). reflexivity.
  - apply extend_onCurrent.
  - reflexivity.
  - reflexivity.
  - reflexivity.
  - reflexivity.
  - discriminate.
  - reflexivity.
  - exact Hext.
  - reflexivity.
  - exact Hhandle.
  - reflexivity.
Defined.

(** An atomic batch that holds a record in conflict with the schema and
    a malformed record: the error is InvalidArgument, not
    IncompatibleSchema. *)
Lemma conflicting_batch_counterexample :
  let request :=
    payload (SaveData true [twelve; malformed]) txDatabase [] false in
  let answer :=
    (RecordSaveHandler_Handle externals saveHandler request noResponse
       (mkTxState personStore None)).1 in
  conflicts (rights (decodeItem externals <$> [twelve; malformed]))
    (getSchema (mkTxState personStore None)) /\
  (exists e, answer = Done (setErr e noResponse) /\ Code e = InvalidArgument) /\
  ~ (exists r e, answer = Done r /\ Err r = Some e /\
                 Code e = IncompatibleSchema).
Proof.
  split; [|split].
  - exists (mkRecord (mkRecordID "person" "1") [("age", VString "twelve")]),
      "age", (VString "twelve"), TInteger.
    split; [by left|]. split; [by left|]. split; [reflexivity|discriminate].
  - eexists. split; reflexivity.
  - intros (r & e & Hanswer & Herr & Hcode). vm_compute in Hanswer.
    injection Hanswer as <-. simpl in Herr. injection Herr as <-.
    discriminate.
Defined.

(** A non-atomic save of the record in conflict. *)
Lemma conflicting_batch_rejected_witness :
  let request := payload (SaveData false [twelve]) txDatabase [] false in
  let w := mkTxState personStore None in
  (forall db, recordutil_ExtendRecordSchema externals db =
              recordutil.ExtendRecordSchema getSchema setSchema) /\
  DecodeSave externals (PData request) = Some (false, [twelve]) /\
  conflicts (rights (decodeItem externals <$> [twelve])) (getSchema w) /\
  exists e,
    RecordSaveHandler_Handle externals saveHandler request noResponse w =
      (Done (setErr e noResponse), w) /\
    (IsReadOnly (PDatabase request) = false ->
     (exists resultFilter,
        NewRecordResultFilter externals (DBConn request) (PAuthInfo request)
          (HasMasterKey request) w = inr resultFilter) ->
     (false = true -> lefts (decodeItem externals <$> [twelve]) = []) ->
     exists field,
       e = NewError IncompatibleSchema
             ("conflicting schema for field " ++ field)).
Proof.
  intros request w.
  assert (conflicts (rights (decodeItem externals <$> [twelve])) (getSchema w))
    as Hconflict.
  { exists (mkRecord (mkRecordID "person" "1") [("age", VString "twelve")]),
      "age", (VString "twelve"), TInteger.
    split; [by left|]. split; [by left|]. split; [reflexivity|discriminate]. }
  split; [reflexivity|]. split; [reflexivity|]. split; [exact Hconflict|].
  apply (conflicting_batch_rejected externals getSchema setSchema saveHandler
           request noResponse w false [twelve]);
    [reflexivity|reflexivity|exact Hconflict].
Defined.



(** A router with a sender for [ios] only. *)
Lemma RouteSender_Send_dispatch_witness :
  push.RouteSender_Send router push.EmptyMapper tablet tt =
    (Done (Some (errors_New "cannot find sender with type = android")), tt) /\
  push.RouteSender_Send router push.EmptyMapper phone tt =
    (Done (push.Send apns push.EmptyMapper phone tt).1,
     (push.Send apns push.EmptyMapper phone tt).2).
Proof.
  split.
  - apply (proj1 (push_properties.RouteSender_Send_dispatch router
                    push.EmptyMapper tablet tt)). reflexivity.
  - apply (proj2 (push_properties.RouteSender_Send_dispatch router
                    push.EmptyMapper phone tt)). reflexivity.
Defined.

(** The three empty batches. *)
Lemma empty_batch_is_invalid_witness :
  RecordSaveHandler_Handle externals saveHandler
    (payload (SaveData true []) txDatabase [] false) noResponse
    (mkTxState lockedStore None) =
    (Done (setErr (NewInvalidArgument "expected list of record" ["records"])
             noResponse), mkTxState lockedStore None) /\
  RecordFetchHandler_Handle externals
    (payload (FetchData []) txDatabase [] false) noResponse
    (mkTxState lockedStore None) =
    (setErr (NewInvalidArgument "expected list of id" ["ids"]) noResponse,
     mkTxState lockedStore None) /\
  RecordDeleteHandler_Handle externals
    (payload (DeleteData [] [] false) txDatabase [] false) noResponse
    (mkTxState lockedStore None) =
    (setErr (NewInvalidArgument "expected list of records" ["records"])
       noResponse, mkTxState lockedStore None).
Proof.
  split; [|split].
  - apply (proj1 (empty_batch_is_invalid externals saveHandler
                    (payload (SaveData true []) txDatabase [] false)
                    noResponse (mkTxState lockedStore None)) true).
    reflexivity.
  - apply (proj1 (proj2 (empty_batch_is_invalid externals saveHandler
                           (payload (FetchData []) txDatabase [] false)
                           noResponse (mkTxState lockedStore None)))).
    reflexivity.
  - apply (proj2 (proj2 (empty_batch_is_invalid externals saveHandler
                           (payload (DeleteData [] [] false) txDatabase []
                              false)
                           noResponse (mkTxState lockedStore None))) false).
    reflexivity.
Defined.

End concrete.

(* ===================================================================== *)
(** * Properties of the payloads and of the serialization helpers *)

Module payload_properties.
Import skyerr skydb recordutil handler spec.

(** ** Splitting at the first slash *)

Lemma hasSlash_formatID recordID : hasSlash (formatID recordID) = true.
Proof.
  unfold formatID. induction (Type_ recordID) as [|c type IH]; simpl; [done|].
  by rewrite IH, orb_true_r.
Qed.

Lemma SplitN_without_slash s : hasSlash s = false -> SplitN s = [s].
Proof.
  induction s as [|c rest IH]; simpl; [done|].
  intros [Hc Hrest]%orb_false_iff. by rewrite Hc, IH.
Qed.

Lemma SplitN_with_slash s :
  hasSlash s = true ->
  exists type key,
    SplitN s = [type; key] /\ s = type ++ "/" ++ key /\ hasSlash type = false.
Proof.
  induction s as [|c rest IH]; simpl; [done|].
  destruct (Ascii.eqb c "/") eqn:Hc; simpl.
  - intros _. exists "", rest. apply Ascii.eqb_eq in Hc. by rewrite Hc.
  - intros Hrest. destruct (IH Hrest) as (type & key & -> & Heq & Hfree).
    exists (String c type), key. simpl. by rewrite Hc, Hfree, Heq.
Qed.

Lemma SplitN_join type key :
  hasSlash type = false -> SplitN (type ++ "/" ++ key) = [type; key].
Proof.
  induction type as [|c type IH]; simpl; [done|].
  intros [Hc Htype]%orb_false_iff. by rewrite Hc, IH.
Qed.

Lemma SplitN_formatID recordID :
  hasSlash (Type_ recordID) = false ->
  SplitN (formatID recordID) = [Type_ recordID; Key recordID].
Proof. apply SplitN_join. Qed.

Lemma SplitN_length_one s : length (SplitN s) = 1 <-> hasSlash s = false.
Proof.
  split.
  - intros Hone. destruct (hasSlash s) eqn:Hs; [|done].
    destruct (SplitN_with_slash s Hs) as (type & key & Heq & _).
    by rewrite Heq in Hone.
  - intros Hs. by rewrite SplitN_without_slash.
Qed.

(** A list of raw ids is the text of slash-free-typed record ids, either
    as a whole or up to its first element without a slash. *)
Lemma rawIDs_parse (rawIDs : list string) :
  (exists ids,
     rawIDs = formatID <$> ids /\
     Forall (fun recordID => hasSlash (Type_ recordID) = false) ids) \/
  (exists ids bad rest,
     rawIDs = ((formatID <$> ids) ++ bad :: rest)%list /\
     Forall (fun recordID => hasSlash (Type_ recordID) = false) ids /\
     hasSlash bad = false).
Proof.
  induction rawIDs as [|rawID rawIDs IH].
  - left. by exists [].
  - destruct (hasSlash rawID) eqn:Hs.
    + destruct (SplitN_with_slash rawID Hs) as (type & key & _ & -> & Hfree).
      destruct IH as [(ids & -> & Hids)|(ids & bad & rest & -> & Hids & Hbad)].
      * left. exists (mkRecordID type key :: ids). split; [done|].
        by constructor.
      * right. exists (mkRecordID type key :: ids), bad, rest.
        split; [done|]. split; [by constructor|done].
    + right. by exists [], rawID, rawIDs.
Qed.

Lemma Forall_hasSlash_formatID (ids : list RecordID) :
  Forall (fun rawID => hasSlash rawID = true) (formatID <$> ids).
Proof.
  apply Forall_fmap, Forall_forall. intros recordID _.
  apply hasSlash_formatID.
Qed.

Lemma lefts_rights_length {A B : Type} (l : list (A + B)) :
  length (rights l) + length (lefts l) = length l.
Proof.
  unfold lefts, rights. induction l as [|[a|b] l IH]; cbn in *; lia.
Qed.

(** ** The loops over raw ids *)

Ltac loop_formatted_step IH Hfree filled fill tail more :=
  destruct fill as [|? fill]; [done|];
  apply Forall_cons in Hfree as [? ?];
  rewrite SplitN_formatID by done;
  case_decide; [done|]; simpl;
  rewrite insert_app_r_alt by lia;
  match goal with
  | |- context [<[?i - length filled := _]> _] =>
    replace (i - length filled) with 0 by lia
  end; simpl;
  match goal with
  | |- context [{| Type_ := Type_ ?r; Key := Key ?r |}] =>
    replace {| Type_ := Type_ r; Key := Key r |} with r by (by destruct r);
    change (filled ++ r :: fill ++ tail)%list
      with (filled ++ [r] ++ fill ++ tail)%list;
    rewrite (app_assoc filled [r] (fill ++ tail)%list);
    rewrite (IH _ (filled ++ [r])%list fill tail more);
      [ rewrite <- app_assoc; simpl; f_equal; lia
      | done
      | rewrite length_app; simpl; lia
      | simpl in *; lia ]
  end.

Lemma recordFetchPayload_Validate_loop_formatted (ids : list RecordID) :
  forall i (filled fill tail : list RecordID) (more : list string),
  Forall (fun recordID => hasSlash (Type_ recordID) = false) ids ->
  length filled = i ->
  length fill = length ids ->
  recordFetchPayload_Validate_loop i ((formatID <$> ids) ++ more)
    (filled ++ fill ++ tail) =
  recordFetchPayload_Validate_loop (i + length ids) more
    (filled ++ ids ++ tail).
Proof.
  induction ids as [|id ids IH];
    intros i filled fill tail more Hfree Hfilled Hfill; simpl.
  - destruct fill; [|done]. by rewrite Nat.add_0_r.
  - loop_formatted_step IH Hfree filled fill tail more.
Qed.

Lemma recordDeletePayload_Validate_loop_formatted (ids : list RecordID) :
  forall i (filled fill tail : list RecordID) (more : list string),
  Forall (fun recordID => hasSlash (Type_ recordID) = false) ids ->
  length filled = i ->
  length fill = length ids ->
  recordDeletePayload_Validate_loop i ((formatID <$> ids) ++ more)
    (filled ++ fill ++ tail) =
  recordDeletePayload_Validate_loop (i + length ids) more
    (filled ++ ids ++ tail).
Proof.
  induction ids as [|id ids IH];
    intros i filled fill tail more Hfree Hfilled Hfill; simpl.
  - destruct fill; [|done]. by rewrite Nat.add_0_r.
  - loop_formatted_step IH Hfree filled fill tail more.
Qed.

Lemma recordFetchPayload_Validate_loop_all (ids : list RecordID) :
  Forall (fun recordID => hasSlash (Type_ recordID) = false) ids ->
  recordFetchPayload_Validate_loop 0 (formatID <$> ids)
    (replicate (length (formatID <$> ids)) (mkRecordID "" "")) = (ids, None).
Proof.
  intros Hfree.
  pose proof (recordFetchPayload_Validate_loop_formatted ids 0 []
                (replicate (length ids) (mkRecordID "" "")) [] [] Hfree
                eq_refl) as Hloop.
  rewrite length_replicate, !app_nil_r in Hloop. simpl in Hloop.
  rewrite length_fmap. by rewrite Hloop.
Qed.

Lemma recordFetchPayload_Validate_loop_bad (ids : list RecordID) bad rest :
  Forall (fun recordID => hasSlash (Type_ recordID) = false) ids ->
  hasSlash bad = false ->
  recordFetchPayload_Validate_loop 0 ((formatID <$> ids) ++ bad :: rest)
    (replicate (length ((formatID <$> ids) ++ bad :: rest)%list)
       (mkRecordID "" "")) =
  ((ids ++ replicate (S (length rest)) (mkRecordID "" ""))%list,
   Some (NewInvalidArgument ("invalid id format: " ++ bad) ["ids"])).
Proof.
  intros Hfree Hbad.
  pose proof (recordFetchPayload_Validate_loop_formatted ids 0 []
                (replicate (length ids) (mkRecordID "" ""))
                (replicate (S (length rest)) (mkRecordID "" ""))
                (bad :: rest) Hfree eq_refl) as Hloop.
  rewrite length_replicate in Hloop. specialize (Hloop eq_refl).
  rewrite length_app, length_fmap, replicate_add.
  change (replicate (length ids) (mkRecordID "" "") ++
          replicate (length (bad :: rest)) (mkRecordID "" ""))%list
    with ([] ++ replicate (length ids) (mkRecordID "" "") ++
          replicate (S (length rest)) (mkRecordID "" ""))%list.
  rewrite Hloop. simpl.
  case_decide as Hone; [done|].
  by apply SplitN_length_one in Hbad.
Qed.

Lemma recordDeletePayload_Validate_loop_all (ids : list RecordID) :
  Forall (fun recordID => hasSlash (Type_ recordID) = false) ids ->
  recordDeletePayload_Validate_loop 0 (formatID <$> ids)
    (replicate (length (formatID <$> ids)) (mkRecordID "" "")) = (ids, None).
Proof.
  intros Hfree.
  pose proof (recordDeletePayload_Validate_loop_formatted ids 0 []
                (replicate (length ids) (mkRecordID "" "")) [] [] Hfree
                eq_refl) as Hloop.
  rewrite length_replicate, !app_nil_r in Hloop. simpl in Hloop.
  rewrite length_fmap. by rewrite Hloop.
Qed.

Lemma recordDeletePayload_Validate_loop_bad (ids : list RecordID) bad rest :
  Forall (fun recordID => hasSlash (Type_ recordID) = false) ids ->
  hasSlash bad = false ->
  recordDeletePayload_Validate_loop 0 ((formatID <$> ids) ++ bad :: rest)
    (replicate (length ((formatID <$> ids) ++ bad :: rest)%list)
       (mkRecordID "" "")) =
  ((ids ++ replicate (S (length rest)) (mkRecordID "" ""))%list,
   Some (NewInvalidArgument
           ("record: " ++ dquote ++ "_id" ++ dquote ++
            " should be of format '{type}/{id}', got " ++
            dquote ++ bad ++ dquote)
           ["ids"])).
Proof.
  intros Hfree Hbad.
  pose proof (recordDeletePayload_Validate_loop_formatted ids 0 []
                (replicate (length ids) (mkRecordID "" ""))
                (replicate (S (length rest)) (mkRecordID "" ""))
                (bad :: rest) Hfree eq_refl) as Hloop.
  rewrite length_replicate in Hloop. specialize (Hloop eq_refl).
  rewrite length_app, length_fmap, replicate_add.
  change (replicate (length ids) (mkRecordID "" "") ++
          replicate (length (bad :: rest)) (mkRecordID "" ""))%list
    with ([] ++ replicate (length ids) (mkRecordID "" "") ++
          replicate (S (length rest)) (mkRecordID "" ""))%list.
  rewrite Hloop. simpl.
  case_decide as Hone; [done|].
  by apply SplitN_length_one in Hbad.
Qed.

Section Payloads.
Context {W AuthInfo FieldACL JSONMap JSON Filter : Type}.
Variable E : Externals W AuthInfo FieldACL JSONMap JSON Filter.

(** ** [recordSavePayload.Validate] *)

(** X1.  When [recordSavePayload.Validate] accepts a payload, the
    fields it fills keep what their comments in the source promise: the
    batch is not empty; [IncomingItems] corresponds one to one to
    [RawMaps], the item at an index being the de-serialization error of
    the raw map at that index, or the id of its sanitized record;
    [Records] and [Errs] together have as many elements as the batch;
    and [Clean] is true exactly when there is no de-serialization
    error, which is exactly when every raw map gave a record.  The flag
    [Atomic] and the raw maps are left as decoded. *)
Theorem recordSavePayload_Validate_invariants
    (payload p : recordSavePayload JSONMap) :
  recordSavePayload_Validate E payload = (p, None) ->
  SAtomic p = SAtomic payload /\
  RawMaps p = RawMaps payload /\
  0 < recordSavePayload_ItemLen p /\
  length (IncomingItems p) = recordSavePayload_ItemLen p /\
  (forall i recordMap,
     RawMaps p !! i = Some recordMap ->
     IncomingItems p !! i =
       Some match FromMap E recordMap with
            | inl msg => IncomingError (NewError InvalidArgument msg)
            | inr record => IncomingID (ID (SanitizeForInput E record))
            end) /\
  length (Records p) + length (Errs p) = recordSavePayload_ItemLen p /\
  (Clean p = true <-> Errs p = []) /\
  (Clean p = true <-> length (Records p) = recordSavePayload_ItemLen p).
Proof.
  unfold recordSavePayload_Validate, recordSavePayload_ItemLen.
  case_decide as Hlen; [done|]. intros [= <-].
  rewrite handler_properties.Validate_fold. simpl.
  set (items := decodeItem E <$> RawMaps payload).
  pose proof (lefts_rights_length items) as Hsplit.
  assert (length items = length (RawMaps payload)) as Hitems.
  { unfold items. by rewrite length_fmap. }
  split; [done|]. split; [done|]. split; [lia|].
  split; [by rewrite !length_fmap|]. split.
  { intros i recordMap Hi. unfold items.
    rewrite !list_lookup_fmap, Hi. simpl. unfold decodeItem.
    by destruct (FromMap E recordMap). }
  split; [lia|]. split.
  - split; [by intros ?%bool_decide_eq_true|by intros ->].
  - rewrite bool_decide_eq_true. split.
    + intros Hnil. rewrite Hnil in Hsplit. simpl in Hsplit. lia.
    + intros Hall. apply length_zero_iff_nil. lia.
Qed.

(** ** [recordFetchPayload.Validate] *)

(** X2.  [recordFetchPayload.Validate] accepts a payload exactly when
    it holds at least one raw id and every raw id holds a slash.  It
    then leaves the raw ids as they were and parses one record id per
    raw id, in input order: the record type is the text before the
    first slash, so that it holds no slash, and type, slash and key put
    together give the raw id back.  [ItemLen] is then the size of the
    batch. *)
Theorem recordFetchPayload_Validate_accepts (payload : recordFetchPayload) :
  ((recordFetchPayload_Validate payload).2 = None <->
   RawIDs payload <> [] /\
   Forall (fun rawID => hasSlash rawID = true) (RawIDs payload)) /\
  (forall p,
     recordFetchPayload_Validate payload = (p, None) ->
     RawIDs p = RawIDs payload /\
     formatID <$> RecordIDs p = RawIDs payload /\
     Forall (fun recordID => hasSlash (Type_ recordID) = false)
       (RecordIDs p) /\
     recordFetchPayload_ItemLen p = length (RawIDs payload)).
Proof.
  unfold recordFetchPayload_Validate, recordFetchPayload_ItemLen.
  case_decide as Hlen.
  { split; [|done]. split; [done|]. intros [Hne _].
    by apply length_zero_iff_nil in Hlen. }
  assert (RawIDs payload <> []) as Hne.
  { intros Hnil. by rewrite Hnil in Hlen. }
  destruct (rawIDs_parse (RawIDs payload))
    as [(ids & Hraw & Hfree)|(ids & bad & rest & Hraw & Hfree & Hbad)];
    rewrite Hraw.
  - rewrite recordFetchPayload_Validate_loop_all by done. simpl. split.
    + split; [|done]. intros _. rewrite <- Hraw. split; [done|].
      rewrite Hraw. apply Forall_hasSlash_formatID.
    + intros p [= <-]. simpl. by rewrite length_fmap.
  - rewrite recordFetchPayload_Validate_loop_bad by done. simpl.
    split; [|done]. split; [done|]. intros [_ Hall].
    apply Forall_app in Hall as [_ Hall].
    apply Forall_cons in Hall as [Hall _]. by rewrite Hbad in Hall.
Qed.

(** X3.  Round trip of record ids through [recordFetchPayload.Validate]:
    for a non-empty list of record ids whose types hold no slash, the
    payload of their texts (type, slash, key) is accepted, and the
    record ids it parses are the ones the texts were made of, in the
    same order.  A key may hold slashes: the text is split at its first
    slash only. *)
Theorem recordFetchPayload_Validate_round_trip (ids old : list RecordID) :
  ids <> [] ->
  Forall (fun recordID => hasSlash (Type_ recordID) = false) ids ->
  recordFetchPayload_Validate (mkFetchPayload old (formatID <$> ids)) =
    (mkFetchPayload ids (formatID <$> ids), None).
Proof.
  intros Hne Hfree. unfold recordFetchPayload_Validate. simpl.
  case_decide as Hlen.
  - rewrite length_fmap in Hlen. by apply length_zero_iff_nil in Hlen.
  - by rewrite recordFetchPayload_Validate_loop_all.
Qed.

(** X4.  [recordFetchPayload.Validate] stops at the first raw id
    without a slash: the error is the InvalidArgument error whose
    message names that id, whatever follows it; the record ids before
    it have been parsed, and the rest of the array, which was made
    before the loop with one element per raw id, is left zero-valued. *)
Theorem recordFetchPayload_Validate_rejects (ids old : list RecordID)
    (bad : string) (rest : list string) :
  Forall (fun recordID => hasSlash (Type_ recordID) = false) ids ->
  hasSlash bad = false ->
  recordFetchPayload_Validate
    (mkFetchPayload old ((formatID <$> ids) ++ bad :: rest)) =
    (mkFetchPayload
       (ids ++ replicate (S (length rest)) (mkRecordID "" ""))
       ((formatID <$> ids) ++ bad :: rest),
     Some (NewInvalidArgument ("invalid id format: " ++ bad) ["ids"])).
Proof.
  intros Hfree Hbad. unfold recordFetchPayload_Validate. simpl.
  case_decide as Hlen.
  - rewrite length_app in Hlen. simpl in Hlen. lia.
  - by rewrite recordFetchPayload_Validate_loop_bad.
Qed.

(** ** [recordDeletePayload.Validate] *)

(** X5.  In [recordDeletePayload.Validate] the records take precedence
    over the deprecated ids.  With at least one record the payload is
    accepted and the parsed ids are the records' type and key, one per
    record in input order; the deprecated ids are not looked at, so that
    a malformed one does not fail the request.  Without records, a
    non-empty list of deprecated ids that are the texts of record ids
    with slash-free types is accepted and parsed back to those ids. *)
Theorem recordDeletePayload_Validate_accepts (deprecatedIDs : list string)
    (rawRecords : list recordDeleteRecordPayload) (atomic : bool)
    (ids old : list RecordID) :
  (rawRecords <> [] ->
   recordDeletePayload_Validate
     (mkDeletePayload deprecatedIDs rawRecords atomic old) =
     (mkDeletePayload deprecatedIDs rawRecords atomic
        ((fun record => mkRecordID (PType record) (PKey record))
           <$> rawRecords),
      None)) /\
  (ids <> [] ->
   Forall (fun recordID => hasSlash (Type_ recordID) = false) ids ->
   recordDeletePayload_Validate
     (mkDeletePayload (formatID <$> ids) [] atomic old) =
     (mkDeletePayload (formatID <$> ids) [] atomic ids, None)).
Proof.
  unfold recordDeletePayload_Validate. simpl. split.
  - intros Hne. case_decide as Hlen; [done|].
    destruct rawRecords; [done|]. simpl in Hlen. lia.
  - intros Hne Hfree.
    rewrite recordDeletePayload_Validate_loop_all by done.
    destruct ids as [|recordID ids]; [done|].
    repeat case_decide; simpl in *; first [done|lia].
Qed.

(** X6.  Without records, [recordDeletePayload.Validate] stops at the
    first deprecated id without a slash: the error is the
    InvalidArgument error whose message quotes that id, whatever
    follows it. *)
Theorem recordDeletePayload_Validate_rejects (ids old : list RecordID)
    (bad : string) (rest : list string) (atomic : bool) :
  Forall (fun recordID => hasSlash (Type_ recordID) = false) ids ->
  hasSlash bad = false ->
  (recordDeletePayload_Validate
     (mkDeletePayload ((formatID <$> ids) ++ bad :: rest) [] atomic old)).2 =
    Some (NewInvalidArgument
            ("record: " ++ dquote ++ "_id" ++ dquote ++
             " should be of format '{type}/{id}', got " ++
             dquote ++ bad ++ dquote)
            ["ids"]).
Proof.
  intros Hfree Hbad. unfold recordDeletePayload_Validate. simpl.
  rewrite recordDeletePayload_Validate_loop_bad by done.
  repeat case_decide; try done; rewrite length_app in *; simpl in *; lia.
Qed.

End Payloads.

(** ** [serializedError.MarshalJSON] *)

Section Marshal.
Variable Name : Error -> string.

(** X7.  The object that [serializedError.MarshalJSON] marshals always
    holds "_type" (the text "error"), "name", "code" and "message" of
    the error.  It holds "_id" exactly when the id is not empty, "info"
    exactly when the error has an info map (an empty one is kept), and
    "_recordType" and "_recordID" exactly when the id holds a slash.  It
    has no other key. *)
Theorem serializedError_MarshalJSON_keys (s : serializedError) :
  let m := serializedError_MarshalJSON Name s in
  m !! "_type" = Some (MString "error") /\
  m !! "name" = Some (MString (Name (err s))) /\
  m !! "code" = Some (MCode (Code (err s))) /\
  m !! "message" = Some (MString (Message (err s))) /\
  m !! "_id" = (if decide (id s = "") then None else Some (MString (id s))) /\
  m !! "info" = MInfo <$> Info (err s) /\
  (is_Some (m !! "_recordType") <-> hasSlash (id s) = true) /\
  (is_Some (m !! "_recordID") <-> hasSlash (id s) = true) /\
  (forall key, is_Some (m !! key) ->
     key ∈ ["_type"; "name"; "code"; "message"; "_id"; "_recordType";
            "_recordID"; "info"]).
Proof.
  unfold serializedError_MarshalJSON.
  destruct (hasSlash (id s)) eqn:Hslash.
  - destruct (SplitN_with_slash _ Hslash) as (type & key & Hsplit & Hid & _).
    assert (id s <> "") as Hne.
    { intros Hempty. by rewrite Hempty in Hslash. }
    rewrite Hsplit. simpl.
    destruct (decide (id s <> "")) as [_|?]; [|done].
    destruct (decide (id s = "")) as [?|_]; [done|].
    destruct (Info (err s)) as [info|]; simpl;
      repeat split; intros; simplify_map_eq; try done;
      match goal with
      | H : is_Some (_ !! ?key) |- _ =>
        destruct H as [v Hv];
        repeat (apply lookup_insert_Some in Hv as [[<- _]|[_ Hv]];
                [set_solver|]);
        apply lookup_singleton_Some in Hv as [<- _]; set_solver
      end.
  - apply SplitN_without_slash in Hslash as Hsplit. rewrite Hsplit. simpl.
    destruct (decide (id s <> "")) as [Hne|Hempty];
      destruct (decide (id s = "")) as [Hempty'|Hne']; try done;
      destruct (Info (err s)) as [info|]; simpl;
      repeat split; intros; simplify_map_eq; try done;
      try (by match goal with H : is_Some None |- _ => destruct H end);
      match goal with
      | H : is_Some (_ !! ?key) |- _ =>
        destruct H as [v Hv];
        repeat (apply lookup_insert_Some in Hv as [[<- _]|[_ Hv]];
                [set_solver|]);
        apply lookup_singleton_Some in Hv as [<- _]; set_solver
      end.
Qed.

(** X8.  When the id of a serialized error holds a slash,
    [serializedError.MarshalJSON] splits it at its first slash:
    "_recordType" is the text before it, which holds no slash,
    "_recordID" the text after it, and the two joined by a slash are
    "_id". *)
Theorem serializedError_MarshalJSON_record (s : serializedError) :
  hasSlash (id s) = true ->
  exists type key,
    id s = type ++ "/" ++ key /\
    hasSlash type = false /\
    serializedError_MarshalJSON Name s !! "_id" = Some (MString (id s)) /\
    serializedError_MarshalJSON Name s !! "_recordType" =
      Some (MString type) /\
    serializedError_MarshalJSON Name s !! "_recordID" = Some (MString key).
Proof.
  intros Hslash.
  destruct (SplitN_with_slash _ Hslash) as (type & key & Hsplit & Hid & Hfree).
  exists type, key. split; [done|]. split; [done|].
  assert (id s <> "") as Hne.
  { intros Hempty. by rewrite Hempty in Hslash. }
  unfold serializedError_MarshalJSON. rewrite Hsplit. simpl.
  destruct (decide (id s <> "")) as [_|?]; [|done].
  destruct (Info (err s)) as [info|]; by simplify_map_eq.
Qed.

End Marshal.

(** ** [jsonData.ToMap] *)

(** X9.  After [jsonData.ToMap], the map written into holds, for every
    key of the data, the value of the data, a value that implements
    [ToMapper] being replaced by the map it writes; an entry of the
    same key that the map held before is overwritten.  Every other key
    keeps what the map held before.  In particular the order in which
    the data is visited does not show. *)
Theorem jsonData_ToMap_lookup {V : Type}
    (data m : gmap string (jsonValue V)) (key : string) :
  jsonData_ToMap data m !! key =
    match data !! key with
    | Some value => Some (storedValue value)
    | None => m !! key
    end.
Proof.
  unfold jsonData_ToMap.
  apply (map_fold_weak_ind
           (fun (result data : gmap string (jsonValue V)) =>
              result !! key =
                match data !! key with
                | Some value => Some (storedValue value)
                | None => m !! key
                end)).
  - by rewrite lookup_empty.
  - intros i value data' result Hfresh IH.
    assert (match value with
            | JToMapper written => <[i := JMap written]> result
            | _ => <[i := value]> result
            end = <[i := storedValue value]> result) as ->.
    { by destruct value. }
    destruct (decide (i = key)) as [->|Hne].
    + by rewrite !lookup_insert_eq.
    + by rewrite !lookup_insert_ne.
Qed.

End payload_properties.

(* ===================================================================== *)
(** * Properties of the answers of the handlers *)

Module answer_properties.
Import skyerr skydb recordutil handler spec.

Section Answers.
Context {W AuthInfo FieldACL JSONMap JSON Filter : Type}.
Variable E : Externals W AuthInfo FieldACL JSONMap JSON Filter.

Implicit Types (payload : Payload W AuthInfo FieldACL JSONMap)
  (response : Response JSON) (w : W) (resp : RecordModifyResponse)
  (items : list IncomingItem) (results : list (ResultItem JSON)).

(** ** [makeResultsFromIncomingItem] *)

Lemma makeResults_loop_known items resp (resultFilter : Filter) :
  forall currRecordIdx results,
  forallb knownItem items = true ->
  currRecordIdx <= length (SavedRecords resp) ->
  (currRecordIdx + slotsNeeded (ErrMap resp) items <=
     length (SavedRecords resp) ->
   exists added,
     makeResults_loop E items resp resultFilter currRecordIdx results =
       Done (results ++ added)%list /\
     length added = length items) /\
  (length (SavedRecords resp) <
     currRecordIdx + slotsNeeded (ErrMap resp) items ->
   makeResults_loop E items resp resultFilter currRecordIdx results =
     Panic "runtime error: index out of range").
Proof.
  induction items as [|item items IH]; intros idx results Hknown Hidx; simpl.
  - split; [|lia]. intros _. exists []. by rewrite app_nil_r.
  - simpl in Hknown. apply andb_true_iff in Hknown as [Hitem Hknown].
    destruct item as [e|recordID|typeName]; [| |done].
    + destruct (IH idx (results ++ [ItemError (newSerializedError "" e)])%list
                  Hknown Hidx) as [Hdone Hpanic].
      split; [|done]. intros Hfits.
      destruct (Hdone Hfits) as (added & -> & Hlen).
      eexists (_ :: added). rewrite <- app_assoc. split; [done|].
      simpl. by rewrite Hlen.
    + destruct (ErrMap resp !! recordID) as [err|] eqn:Herr.
      * destruct (IH idx
                    (results ++
                     [ItemError
                        (newSerializedError (RecordID_String E recordID) err)])
                    %list Hknown Hidx) as [Hdone Hpanic].
        split; [|done]. intros Hfits.
        destruct (Hdone Hfits) as (added & -> & Hlen).
        eexists (_ :: added). rewrite <- app_assoc. split; [done|].
        simpl. by rewrite Hlen.
      * destruct (SavedRecords resp !! idx) as [record|] eqn:Hrecord.
        -- destruct (IH (S idx)
                       (results ++
                        [ItemRecord (JSONResult E resultFilter record)])%list
                       Hknown) as [Hdone Hpanic].
           { apply lookup_lt_Some in Hrecord. lia. }
           split.
           ++ intros Hfits. destruct Hdone as (added & -> & Hlen); [lia|].
              eexists (_ :: added). rewrite <- app_assoc. split; [done|].
              simpl. by rewrite Hlen.
           ++ intros Hshort. apply Hpanic. lia.
        -- apply lookup_ge_None in Hrecord. split; [lia|done].
Qed.

Lemma makeResults_loop_unknown items resp (resultFilter : Filter) :
  forallb knownItem items = false ->
  forall currRecordIdx results,
  exists msg,
    makeResults_loop E items resp resultFilter currRecordIdx results =
      Panic msg.
Proof.
  induction items as [|item items IH]; simpl; [done|].
  intros Hunknown idx results.
  destruct item as [e|recordID|typeName]; simpl in Hunknown.
  - apply IH, Hunknown.
  - destruct (ErrMap resp !! recordID); [apply IH, Hunknown|].
    destruct (SavedRecords resp !! idx); [apply IH, Hunknown|by eexists].
  - by eexists.
Qed.

(** X10.  [makeResultsFromIncomingItem] returns, rather than panics,
    exactly when every incoming item is a de-serialization error or a
    record id and the response holds at least as many saved records as
    there are record ids without an entry in its error map.  When it
    returns, it has appended exactly one result per incoming item to
    the results it was given, which it leaves in front. *)
Theorem makeResultsFromIncomingItem_returns items resp
    (resultFilter : Filter) results :
  ((exists out,
      makeResultsFromIncomingItem E items resp resultFilter results =
        Done out) <->
   forallb knownItem items = true /\
   slotsNeeded (ErrMap resp) items <= length (SavedRecords resp)) /\
  (forall out,
     makeResultsFromIncomingItem E items resp resultFilter results =
       Done out ->
     exists added,
       out = (results ++ added)%list /\ length added = length items).
Proof.
  unfold makeResultsFromIncomingItem.
  destruct (forallb knownItem items) eqn:Hknown.
  - destruct (makeResults_loop_known items resp resultFilter 0 results Hknown)
      as [Hdone Hpanic]; [lia|]. simpl in Hdone, Hpanic.
    destruct (decide (slotsNeeded (ErrMap resp) items <=
                      length (SavedRecords resp))) as [Hfits|Hshort].
    + destruct (Hdone Hfits) as (added & Hloop & Hlen). rewrite Hloop.
      split; [split; [done|by eexists]|].
      intros out [= <-]. by exists added.
    + rewrite Hpanic by lia. split; [|done].
      split; [by intros [out ?]|by intros [_ ?]].
  - destruct (makeResults_loop_unknown items resp resultFilter Hknown 0
                results) as [msg Hloop].
    rewrite Hloop. split; [|done].
    split; [by intros [out ?]|by intros [? _]].
Qed.

(** ** [RecordSaveHandler.Handle] *)

Lemma recordSavePayload_Decode_known p0 data p :
  recordSavePayload_Decode E p0 data = (p, None) ->
  forallb knownItem (IncomingItems p) = true.
Proof.
  unfold recordSavePayload_Decode, recordSavePayload_Validate.
  destruct (DecodeSave E data) as [[atomic rawMaps]|]; [|done].
  case_decide; [done|]. simpl. intros [= <-].
  rewrite handler_properties.Validate_fold. simpl.
  apply forallb_forall. intros item Hin. apply list_elem_of_In in Hin.
  apply list_elem_of_fmap in Hin as (outcome & -> & _).
  by destruct outcome.
Qed.

(** X11.  The items that [recordSavePayload.Validate] makes are
    de-serialization errors and record ids only, so that the panic
    "unknown type of incoming item" of [makeResultsFromIncomingItem]
    cannot happen in [RecordSaveHandler.Handle]: if the handler panics
    at all, it is with an index out of range, the inner save function
    having reported fewer saved records than there are record ids
    without an error. *)
Theorem RecordSaveHandler_Handle_panic h payload response w msg w' :
  RecordSaveHandler_Handle E h payload response w = (Panic msg, w') ->
  msg = "runtime error: index out of range".
Proof.
  unfold RecordSaveHandler_Handle.
  destruct (recordSavePayload_Decode E _ _) as [p [skyErr|]] eqn:Hdecode;
    [done|].
  apply recordSavePayload_Decode_known in Hdecode.
  destruct (IsReadOnly _); [done|].
  destruct (NewRecordResultFilter E _ _ _ w) as [?|resultFilter]; [done|].
  destruct (if SAtomic p then _ else _) as [saveFunc|]; [|done].
  destruct (recordutil_ExtendRecordSchema E _ _ w)
    as [[schemaUpdated [[?|?]|]] w1]; [done|done|].
  destruct (saveFunc _ _ w1) as [[[?|] resp'] w2]; [done|].
  unfold makeResultsFromIncomingItem.
  destruct (makeResults_loop_known (IncomingItems p) resp' resultFilter 0 []
              Hdecode) as [Hdone Hpanic]; [lia|].
  destruct (decide (0 + slotsNeeded (ErrMap resp') (IncomingItems p) <=
                    length (SavedRecords resp'))) as [Hfits|Hshort].
  - destruct (Hdone Hfits) as (added & -> & _).
    by destruct schemaUpdated, (EventSender h).
  - rewrite Hpanic by lia. by intros [= <- _].
Qed.

(** X12.  The schema-changed event of [RecordSaveHandler.Handle] is
    best effort: the answer of the handler is the same with and without
    an event sender, whatever the sender does or returns.  The event is
    sent only after the result array has been put in the response, only
    when the schema extension reported an update, and at most once; in
    every other case the world is left as without a sender. *)
Theorem RecordSaveHandler_Handle_event h payload response w :
  let silent := RecordSaveHandler_Handle E {| EventSender := None |}
                  payload response w in
  (RecordSaveHandler_Handle E h payload response w).1 = silent.1 /\
  ((RecordSaveHandler_Handle E h payload response w).2 = silent.2 \/
   exists sender results p w1,
     EventSender h = Some sender /\
     recordSavePayload_Decode E recordSavePayload_zero (PData payload) =
       (p, None) /\
     recordutil_ExtendRecordSchema E (PDatabase payload) (Records p) w =
       ((true, None), w1) /\
     silent.1 = Done (setResult results response) /\
     (RecordSaveHandler_Handle E h payload response w).2 =
       (sendSchemaChangedEvent E sender (PDatabase payload) silent.2).2).
Proof.
  unfold RecordSaveHandler_Handle.
  destruct (recordSavePayload_Decode E _ _) as [p [skyErr|]] eqn:Hdecode;
    [by split; [|left]|].
  destruct (IsReadOnly _); [by split; [|left]|].
  destruct (NewRecordResultFilter E _ _ _ w) as [?|resultFilter];
    [by split; [|left]|].
  destruct (if SAtomic p then _ else _) as [saveFunc|]; [|by split; [|left]].
  destruct (recordutil_ExtendRecordSchema E _ _ w)
    as [[schemaUpdated [[?|?]|]] w1] eqn:Hextend;
    [by split; [|left]|by split; [|left]|].
  destruct (saveFunc _ _ w1) as [[[?|] resp'] w2]; [by split; [|left]|].
  destruct (makeResultsFromIncomingItem E _ _ _ _) as [results|?];
    [|by split; [|left]].
  destruct schemaUpdated, (EventSender h) as [sender|] eqn:Hsender; simpl;
    try (by split; [|left]).
  split; [done|]. right. by exists sender, results, p, w1.
Qed.

(** ** Read-only databases *)

(** X13.  On a read-only database neither [RecordSaveHandler.Handle]
    nor [RecordDeleteHandler.Handle] gets as far as the store, whatever
    the request holds: each answers with an error, which is the
    BadRequest error of decoding, the InvalidArgument error of
    validation or the NotSupported error of the guard, sets no result
    and leaves the world as it was. *)
Theorem read_only_database_untouched h payload response w :
  IsReadOnly (PDatabase payload) = true ->
  (exists e,
     RecordSaveHandler_Handle E h payload response w =
       (Done (setErr e response), w) /\
     Code e ∈ [BadRequest; InvalidArgument; NotSupported]) /\
  (exists e,
     RecordDeleteHandler_Handle E payload response w =
       (setErr e response, w) /\
     Code e ∈ [BadRequest; InvalidArgument; NotSupported]).
Proof.
  intros HreadOnly. split.
  - unfold RecordSaveHandler_Handle. rewrite HreadOnly.
    unfold recordSavePayload_Decode, recordSavePayload_Validate.
    destruct (DecodeSave E _) as [[atomic rawMaps]|].
    + case_decide; eexists; (split; [done|]); simpl; set_solver.
    + eexists. split; [done|]. simpl. set_solver.
  - unfold RecordDeleteHandler_Handle. rewrite HreadOnly.
    unfold recordDeletePayload_Decode, recordDeletePayload_Validate.
    destruct (DecodeDelete E _) as [[[deprecatedIDs rawRecords] atomic]|].
    + simpl. case_decide; [eexists; split; [done|]; simpl; set_solver|].
      case_decide; [|eexists; split; [done|]; simpl; set_solver].
      destruct (recordDeletePayload_Validate_loop _ _ _) as [ids [e|]]
        eqn:Hloop.
      * eexists. split; [done|].
        assert (Code e = InvalidArgument) as ->; [|set_solver].
        clear -Hloop. revert Hloop.
        generalize 0, (replicate (length deprecatedIDs) (mkRecordID "" "")).
        induction deprecatedIDs as [|rawID rest IH]; simpl; [done|].
        intros i recordIDs. case_decide; [by intros [= _ <-]|apply IH].
      * eexists. split; [done|]. simpl. set_solver.
    + eexists. split; [done|]. simpl. set_solver.
Qed.

(** ** [RecordFetchHandler.Handle] *)

Lemma RecordFetchHandler_loop_worlds payload (resultFilter : Filter)
    (ids : list RecordID) :
  forall results w,
  exists added (worlds : list W) w',
    RecordFetchHandler_loop E payload resultFilter ids results w =
      ((results ++ added)%list, w') /\
    length added = length ids /\
    length worlds = S (length ids) /\
    worlds !! 0 = Some w /\
    worlds !! length ids = Some w' /\
    forall i recordID wi,
      ids !! i = Some recordID ->
      worlds !! i = Some wi ->
      let fetched :=
        FetchRecord E (PDatabase payload) (DBConn payload)
          (HasMasterKey payload) recordID (PAuthInfo payload) wi in
      added !! i = Some (fetchedItem E resultFilter recordID fetched.1) /\
      worlds !! S i = Some fetched.2.
Proof.
  induction ids as [|recordID ids IH]; intros results w; simpl.
  - exists [], [w], w. rewrite app_nil_r. by repeat split.
  - destruct (FetchRecord E _ _ _ recordID _ w) as [outcome w1] eqn:Hfetch.
    destruct (IH (results ++ [fetchedItem E resultFilter recordID outcome])%list
                w1)
      as (added & worlds & w' & Hloop & Hadded & Hworlds & Hfirst & Hlast &
          Heach).
    exists (fetchedItem E resultFilter recordID outcome :: added),
      (w :: worlds), w'.
    split.
    { rewrite <- app_assoc in Hloop. by destruct outcome. }
    split; [simpl; lia|]. split; [simpl; lia|]. split; [done|].
    split; [done|].
    intros [|i] recordID' wi Hid Hwi; simpl in *.
    + injection Hid as <-. injection Hwi as <-. by rewrite Hfetch.
    + by apply Heach.
Qed.

(** X14.  Once the payload is valid and the result filter exists,
    [RecordFetchHandler.Handle] cannot fail as a whole, and it does not
    ask whether the database is read-only.  It fetches the records in
    input order, each fetch starting in the world the one before left,
    and answers with an array of exactly one element per id, in input
    order: the element at an index is the outcome of the fetch of the
    id at that index, an error serialized with the id or the filtered
    record.  [Err] is left as it was. *)
Theorem RecordFetchHandler_Handle_results payload response w
    (ids : list RecordID) (resultFilter : Filter) :
  DecodeFetch E (PData payload) = Some (formatID <$> ids) ->
  ids <> [] ->
  Forall (fun recordID => hasSlash (Type_ recordID) = false) ids ->
  NewRecordResultFilter E (DBConn payload) (PAuthInfo payload)
    (HasMasterKey payload) w = inr resultFilter ->
  exists results (worlds : list W) w',
    RecordFetchHandler_Handle E payload response w =
      (setResult results response, w') /\
    length results = length ids /\
    length worlds = S (length ids) /\
    worlds !! 0 = Some w /\
    worlds !! length ids = Some w' /\
    forall i recordID wi,
      ids !! i = Some recordID ->
      worlds !! i = Some wi ->
      let fetched :=
        FetchRecord E (PDatabase payload) (DBConn payload)
          (HasMasterKey payload) recordID (PAuthInfo payload) wi in
      results !! i = Some (fetchedItem E resultFilter recordID fetched.1) /\
      worlds !! S i = Some fetched.2.
Proof.
  intros Hdecode Hne Hfree Hfilter.
  unfold RecordFetchHandler_Handle, recordFetchPayload_Decode.
  rewrite Hdecode. unfold recordFetchPayload_Validate. simpl.
  case_decide as Hlen.
  { rewrite length_fmap in Hlen. by apply length_zero_iff_nil in Hlen. }
  rewrite payload_properties.recordFetchPayload_Validate_loop_all by done.
  simpl. rewrite Hfilter.
  destruct (RecordFetchHandler_loop_worlds payload resultFilter ids [] w)
    as (results & worlds & w' & Hloop & Hrest).
  rewrite Hloop. by exists results, worlds, w'.
Qed.

(** X19.  One malformed id fails a whole fetch and a whole delete by
    deprecated ids: when some raw id holds no slash, the handler
    answers with the InvalidArgument error that names the first such
    id and sets no result.  It does so before it creates the result
    filter, fetches or deletes anything, or asks whether the database
    is read-only: not even the ids in front of the malformed one are
    processed, and the world is left as it was. *)
Theorem malformed_id_fails_request payload response w (ids : list RecordID)
    (bad : string) (rest : list string) :
  Forall (fun recordID => hasSlash (Type_ recordID) = false) ids ->
  hasSlash bad = false ->
  (DecodeFetch E (PData payload) =
     Some ((formatID <$> ids) ++ bad :: rest)%list ->
   RecordFetchHandler_Handle E payload response w =
     (setErr (NewInvalidArgument ("invalid id format: " ++ bad) ["ids"])
        response, w)) /\
  (forall atomic,
     DecodeDelete E (PData payload) =
       Some (((formatID <$> ids) ++ bad :: rest)%list, [], atomic) ->
     RecordDeleteHandler_Handle E payload response w =
       (setErr
          (NewInvalidArgument
             ("record: " ++ dquote ++ "_id" ++ dquote ++
              " should be of format '{type}/{id}', got " ++
              dquote ++ bad ++ dquote)
             ["ids"])
          response, w)).
Proof.
  intros Hfree Hbad. split.
  - intros Hdecode.
    unfold RecordFetchHandler_Handle, recordFetchPayload_Decode.
    rewrite Hdecode. unfold recordFetchPayload_Validate. simpl.
    rewrite payload_properties.recordFetchPayload_Validate_loop_bad by done.
    case_decide as Hlen; [|done].
    rewrite length_app in Hlen. simpl in Hlen. lia.
  - intros atomic Hdecode.
    unfold RecordDeleteHandler_Handle, recordDeletePayload_Decode.
    rewrite Hdecode. unfold recordDeletePayload_Validate. simpl.
    rewrite payload_properties.recordDeletePayload_Validate_loop_bad by done.
    repeat case_decide; try done; rewrite length_app in *; simpl in *; lia.
Qed.

(** ** [atomicModifyFunc] *)

(** X15.  With a database that has the transaction capability,
    [atomicModifyFunc] hands on the response and the world that the
    transaction left, and returns no error exactly when the error map
    of the response is empty and the transaction returned no error.
    Every error it returns is an AtomicOperationFailure error with an
    info map.  A non-empty error map takes precedence over the error of
    the transaction: the message then speaks of one or more errors;
    with an empty error map the info holds the error of the transaction
    under "innerError" and nothing else.  The request and the response
    that [atomicModifyFunc] itself is given are not used. *)
Theorem atomicModifyFunc_error_iff req0 resp0
    (mFunc : recordModifyFunc W AuthInfo FieldACL) req resp w tx txErr
    resp' w' :
  AsTransactional (Db req) = Some tx ->
  WithTransaction tx
    (fun resp w =>
       let '(e, resp', w') := mFunc req resp w in (as_error e, resp', w'))
    resp w = (txErr, resp', w') ->
  exists result,
    atomicModifyFunc E req0 resp0 mFunc req resp w = (result, resp', w') /\
    (result = None <-> ErrMap resp' = ∅ /\ txErr = None) /\
    (forall e, result = Some e ->
       Code e = AtomicOperationFailure /\
       is_Some (Info e) /\
       (ErrMap resp' <> ∅ ->
        Message e =
          "Atomic Operation rolled back due to one or more errors") /\
       (ErrMap resp' = ∅ ->
        exists inner,
          txErr = Some inner /\
          Message e = "Atomic Operation rolled back due to an error" /\
          Info e = Some {[ "innerError" := InfoError inner ]})).
Proof.
  intros Htx Hrun. unfold atomicModifyFunc. rewrite Htx, Hrun.
  destruct (decide (0 < size (ErrMap resp'))) as [Hsome|Hnone].
  - assert (ErrMap resp' <> ∅) as Hne.
    { intros Hempty. rewrite Hempty, map_size_empty in Hsome. lia. }
    eexists. split; [done|]. split; [by split; [|intros [? _]]|].
    intros e [= <-]. by repeat split.
  - assert (ErrMap resp' = ∅) as Hempty.
    { apply map_size_empty_iff. lia. }
    destruct txErr as [inner|].
    + eexists. split; [done|]. split; [by split; [|intros [_ ?]]|].
      intros e [= <-]. repeat split; [done|done|]. intros _. by exists inner.
    + eexists. split; [done|]. split; [done|]. by intros e.
Qed.

(** ** [RecordQueryHandler.Handle] *)

(** X16.  From the store query on, [RecordQueryHandler.Handle] always
    answers: the response it leaves has an error or a result array.
    It sets the info only together with the result array, only when the
    info is not empty, and without setting an error.  When the query
    result info cannot be computed the response carries both the result
    array, which had been set before, and the error. *)
Theorem RecordQueryHandler_execute_answers payload (p : recordQueryPayload)
    (accessControlOptions : AccessControlOptions AuthInfo) response w :
  let answer :=
    (RecordQueryHandler_execute E payload p accessControlOptions response w).1
  in
  (is_Some (Err answer) \/ is_Some (Result answer)) /\
  (RInfo answer = RInfo response \/
   exists info output,
     info <> ∅ /\ answer = setInfo info (setResult output response)) /\
  (forall rows w1 recordResultFilter infoErr w3,
     DbQuery (PDatabase payload) (PQuery p) accessControlOptions w =
       (inr rows, w1) ->
     RowsErr rows = None ->
     let records :=
       MakeAssetsComplete E (PDatabase payload) (DBConn payload)
         (Scanned rows) w1 in
     let eager :=
       DoQueryEager E (PDatabase payload)
         (EagerIDs E (PDatabase payload) records (PQuery p))
         accessControlOptions w1 in
     NewRecordResultFilter E (DBConn payload) (PAuthInfo payload)
       (BypassAccessControl accessControlOptions) eager.2 =
       inr recordResultFilter ->
     QueryResultInfo E (PDatabase payload) (PQuery p) accessControlOptions
       rows eager.2 = (inl infoErr, w3) ->
     Err answer = Some (MakeError E infoErr) /\
     exists output,
       Result answer = Some output /\ length output = length records).
Proof.
  unfold RecordQueryHandler_execute.
  destruct (DbQuery _ _ _ w) as [[err|rows] w1] eqn:Hquery; simpl.
  { split; [by left|]. split; [by left|]. by intros. }
  destruct (RowsErr rows) as [scanErr|] eqn:Hscan; simpl.
  { split; [by left|]. split; [by left|].
    intros ? ? ? ? ? [= <- <-]. by rewrite Hscan. }
  destruct (DoQueryEager E _ _ _ w1) as [eagerRecords w2] eqn:Heager.
  destruct (NewRecordResultFilter E _ _ _ w2) as [err|recordResultFilter]
    eqn:Hfilter; simpl.
  { split; [by left|]. split; [by left|].
    intros ? ? ? ? ? [= <- <-] _. simpl. rewrite Heager. simpl.
    by rewrite Hfilter. }
  destruct (QueryResultInfo E _ _ _ rows w2) as [[infoErr|resultInfo] w3]
    eqn:Hinfo; simpl.
  - split; [by left|]. split; [by left|].
    intros ? ? ? ? ? [= <- <-] _. simpl. rewrite Heager. simpl.
    rewrite Hfilter, Hinfo. intros [= <-] [= <- <-]. split; [done|].
    eexists. split; [done|]. by rewrite length_fmap.
  - case_decide as Hsize; simpl.
    + split; [by right|]. split.
      * right. eexists _, _. split; [|done]. intros Hempty.
        rewrite Hempty, map_size_empty in Hsize. lia.
      * intros ? ? ? ? ? [= <- <-] _. simpl. rewrite Heager. simpl.
        by rewrite Hfilter, Hinfo.
    + split; [by right|]. split; [by left|].
      intros ? ? ? ? ? [= <- <-] _. simpl. rewrite Heager. simpl.
      by rewrite Hfilter, Hinfo.
Qed.

End Answers.
End answer_properties.

(* ===================================================================== *)
(** * Properties of the registration of senders *)

Module route_properties.
Import skyerr push.

Section Routes.
Context {W V : Type}.
Implicit Types (s : RouteSender W V) (m : Mapper V) (device : Device) (w : W).

(** X17.  [Route] registers a sender for one service and changes
    nothing else.  After it, a notification for a device of that service
    goes to the sender just registered, whatever was registered for the
    service before (the last registration wins; a nil sender makes
    [Send] panic), and a notification for a device of any other type is
    treated as before the registration. *)
Theorem Send_Route s (service : string) (sender : option (Sender W V)) m
    device w :
  RouteSender_Send (Route s service sender) m device w =
    if decide (DeviceType device = service) then
      match sender with
      | Some registered =>
        (Done (Send registered m device w).1, (Send registered m device w).2)
      | None =>
        (Panic
           "runtime error: invalid memory address or nil pointer dereference",
         w)
      end
    else RouteSender_Send s m device w.
Proof.
  unfold RouteSender_Send, Route. simpl.
  destruct (decide (DeviceType device = service)) as [->|Hother].
  - rewrite lookup_insert_eq. destruct sender as [registered|]; [|done].
    by destruct (Send registered m device w).
  - by rewrite lookup_insert_ne.
Qed.

(** X18.  [Len] counts the services, not the registrations: a new
    router has none, [Route] for a service that has no sender yet adds
    one, and [Route] for a service that has one already, which replaces
    the sender, leaves the count as it was.  A router whose count is
    zero answers every notification by the error "cannot find sender",
    without touching the world. *)
Theorem Len_Route s (service : string) (sender : option (Sender W V)) :
  Len (NewRouteSender : RouteSender W V) = 0 /\
  Len (Route s service sender) =
    match senders s !! service with
    | Some _ => Len s
    | None => S (Len s)
    end /\
  (Len s = 0 ->
   forall m device w,
     RouteSender_Send s m device w =
       (Done (Some (errors_New ("cannot find sender with type = " ++
                                DeviceType device))), w)).
Proof.
  unfold Len, Route. simpl. split; [apply map_size_empty|]. split.
  - destruct (senders s !! service) as [old|] eqn:Hold.
    + rewrite <- (insert_delete_id (senders s) service old) at 2 by done.
      rewrite <- insert_delete_eq.
      by rewrite !map_size_insert_None by apply lookup_delete_eq.
    + by rewrite map_size_insert_None.
  - rewrite map_size_empty_iff. intros Hempty m device w.
    unfold RouteSender_Send. by rewrite Hempty, lookup_empty.
Qed.

End Routes.
End route_properties.

(* ===================================================================== *)
(** * The further properties at concrete inputs *)

Module instances.
Import skyerr skydb recordutil handler spec example.
Import payload_properties answer_properties.

(** *** Evaluation of the serialization helpers *)

Example jsonData_ToMap_overwrites :
  jsonData_ToMap plainAndMapper {[ "count" := JPlain 1; "kept" := JPlain 2 ]} =
  {[ "count" := JPlain 3; "kept" := JPlain 2;
     "owner" := JMap {[ "$type" := JPlain 0; "$id" := JPlain 7 ]} ]}.
Proof. vm_compute. reflexivity. Qed.

Example MarshalJSON_of_record_error :
  serializedError_MarshalJSON errorName
    (newSerializedError "note/1" lockedError) =
  {[ "_type" := MString "error"; "name" := MString "PermissionDenied";
     "code" := MCode PermissionDenied; "message" := MString "record is locked";
     "_id" := MString "note/1"; "_recordType" := MString "note";
     "_recordID" := MString "1" ]}.
Proof. vm_compute. reflexivity. Qed.

Example MarshalJSON_of_item_error :
  serializedError_MarshalJSON errorName
    (newSerializedError "" (NewErrorWithInfo InvalidArgument "bad" ∅)) =
  {[ "_type" := MString "error"; "name" := MString "InvalidArgument";
     "code" := MCode InvalidArgument; "message" := MString "bad";
     "info" := MInfo ∅ ]}.
Proof. vm_compute. reflexivity. Qed.

(** *** The properties at concrete inputs *)

(** A batch of a well-formed and a malformed record. *)
Lemma recordSavePayload_Validate_invariants_witness :
  recordSavePayload_Validate externals mixedPayload = (mixedValidated, None) /\
  length (IncomingItems mixedValidated) = 2 /\
  length (Records mixedValidated) + length (Errs mixedValidated) = 2 /\
  (Clean mixedValidated = true <-> Errs mixedValidated = []).
Proof.
  assert (recordSavePayload_Validate externals mixedPayload =
          (mixedValidated, None)) as Hvalid.
  { reflexivity. }
  split; [exact Hvalid|].
  destruct (recordSavePayload_Validate_invariants externals mixedPayload
              mixedValidated Hvalid)
    as (_ & _ & _ & Hitems & _ & Hsum & Hclean & _).
  split; [exact Hitems|]. split; [exact Hsum|exact Hclean].
Defined.

(** Two ids with a slash, the key of the second holding another one. *)
Lemma recordFetchPayload_Validate_accepts_witness :
  let payload := mkFetchPayload [] ["note/1"; "file/a/b"] in
  recordFetchPayload_Validate payload =
    (mkFetchPayload [note1; nested] ["note/1"; "file/a/b"], None) /\
  (recordFetchPayload_Validate payload).2 = None /\
  formatID <$> [note1; nested] = ["note/1"; "file/a/b"] /\
  recordFetchPayload_ItemLen
    (mkFetchPayload [note1; nested] ["note/1"; "file/a/b"]) = 2.
Proof.
  intros payload.
  assert (recordFetchPayload_Validate payload =
          (mkFetchPayload [note1; nested] ["note/1"; "file/a/b"], None))
    as Hvalid.
  { reflexivity. }
  split; [exact Hvalid|].
  destruct (recordFetchPayload_Validate_accepts payload) as [Hiff Hparsed].
  split.
  - apply Hiff. split; [discriminate|]. repeat constructor.
  - destruct (Hparsed _ Hvalid) as (_ & Hformat & _ & Hlen).
    split; [exact Hformat|exact Hlen].
Defined.

Lemma recordFetchPayload_Validate_round_trip_witness :
  [note1; nested] <> [] /\
  Forall (fun recordID => hasSlash (Type_ recordID) = false) [note1; nested] /\
  recordFetchPayload_Validate (mkFetchPayload [] ["note/1"; "file/a/b"]) =
    (mkFetchPayload [note1; nested] ["note/1"; "file/a/b"], None).
Proof.
  assert (Forall (fun recordID => hasSlash (Type_ recordID) = false)
            [note1; nested]) as Hfree.
  { repeat constructor. }
  split; [discriminate|]. split; [exact Hfree|].
  apply (recordFetchPayload_Validate_round_trip [note1; nested] []);
    [discriminate|exact Hfree].
Defined.

(** The second of three ids has no slash. *)
Lemma recordFetchPayload_Validate_rejects_witness :
  Forall (fun recordID => hasSlash (Type_ recordID) = false) [note1] /\
  hasSlash "note" = false /\
  recordFetchPayload_Validate
    (mkFetchPayload [] ["note/1"; "note"; "note/2"]) =
    (mkFetchPayload [note1; mkRecordID "" ""; mkRecordID "" ""]
       ["note/1"; "note"; "note/2"],
     Some (NewInvalidArgument "invalid id format: note" ["ids"])).
Proof.
  assert (Forall (fun recordID => hasSlash (Type_ recordID) = false) [note1])
    as Hfree.
  { repeat constructor. }
  split; [exact Hfree|]. split; [reflexivity|].
  apply (recordFetchPayload_Validate_rejects [note1] [] "note" ["note/2"]);
    [exact Hfree|reflexivity].
Defined.

(** A record beside a malformed deprecated id, and deprecated ids
    alone. *)
Lemma recordDeletePayload_Validate_accepts_witness :
  recordDeletePayload_Validate
    (mkDeletePayload ["note"] [{| PType := "note"; PKey := "1" |}] true []) =
    (mkDeletePayload ["note"] [{| PType := "note"; PKey := "1" |}] true
       [note1], None) /\
  recordDeletePayload_Validate
    (mkDeletePayload ["note/1"; "file/a/b"] [] true []) =
    (mkDeletePayload ["note/1"; "file/a/b"] [] true [note1; nested], None).
Proof.
  split.
  - apply (proj1 (recordDeletePayload_Validate_accepts ["note"]
                    [{| PType := "note"; PKey := "1" |}] true [] [])).
    discriminate.
  - apply (proj2 (recordDeletePayload_Validate_accepts []
                    [] true [note1; nested] []));
      [discriminate|repeat constructor].
Defined.

Lemma recordDeletePayload_Validate_rejects_witness :
  Forall (fun recordID => hasSlash (Type_ recordID) = false) [note1] /\
  hasSlash "note" = false /\
  (recordDeletePayload_Validate
     (mkDeletePayload ["note/1"; "note"; "note/2"] [] false [])).2 =
    Some (NewInvalidArgument
            ("record: " ++ dquote ++ "_id" ++ dquote ++
             " should be of format '{type}/{id}', got " ++
             dquote ++ "note" ++ dquote)
            ["ids"]).
Proof.
  assert (Forall (fun recordID => hasSlash (Type_ recordID) = false) [note1])
    as Hfree.
  { repeat constructor. }
  split; [exact Hfree|]. split; [reflexivity|].
  apply (recordDeletePayload_Validate_rejects [note1] [] "note" ["note/2"]
           false); [exact Hfree|reflexivity].
Defined.

(** The error of a locked record, serialized with an id whose key holds
    a slash. *)
Lemma serializedError_MarshalJSON_record_witness :
  let s := newSerializedError "file/a/b" lockedError in
  hasSlash (id s) = true /\
  exists type key,
    id s = type ++ "/" ++ key /\
    hasSlash type = false /\
    serializedError_MarshalJSON errorName s !! "_id" =
      Some (MString (id s)) /\
    serializedError_MarshalJSON errorName s !! "_recordType" =
      Some (MString type) /\
    serializedError_MarshalJSON errorName s !! "_recordID" =
      Some (MString key).
Proof.
  intros s. split; [reflexivity|].
  apply (serializedError_MarshalJSON_record errorName s). reflexivity.
Defined.

(** One error, one failed save and one saved record. *)
Lemma makeResultsFromIncomingItem_returns_witness :
  let items :=
    [IncomingError (NewError InvalidArgument "invalid record id: note");
     IncomingID note1; IncomingID note2] in
  forallb knownItem items = true /\
  slotsNeeded (ErrMap refusedResponse) items <=
    length (SavedRecords refusedResponse) /\
  exists out added,
    makeResultsFromIncomingItem externals items refusedResponse tt [] =
      Done out /\
    out = ([] ++ added)%list /\ length added = length items.
Proof.
  intros items.
  assert (forallb knownItem items = true) as Hknown by reflexivity.
  assert (slotsNeeded (ErrMap refusedResponse) items <=
          length (SavedRecords refusedResponse)) as Hfits.
  { vm_compute. lia. }
  split; [exact Hknown|]. split; [exact Hfits|].
  destruct (makeResultsFromIncomingItem_returns externals items
              refusedResponse tt []) as [Hiff Hshape].
  destruct (proj2 Hiff (conj Hknown Hfits)) as [out Hout].
  destruct (Hshape out Hout) as (added & Happ & Hlen).
  exists out, added. split; [exact Hout|]. split; [exact Happ|exact Hlen].
Defined.

(** A save whose inner function reports no saved record. *)
Lemma RecordSaveHandler_Handle_panic_witness :
  let request := payload (SaveData false [noteC]) plainDatabase [] false in
  RecordSaveHandler_Handle (externalsWith forgetful noCount) saveHandler
    request noResponse notesWorld =
    (Panic "runtime error: index out of range", notesWorld) /\
  "runtime error: index out of range" = "runtime error: index out of range".
Proof.
  intros request.
  assert (RecordSaveHandler_Handle (externalsWith forgetful noCount)
            saveHandler request noResponse notesWorld =
          (Panic "runtime error: index out of range", notesWorld)) as Hpanic.
  { vm_compute. reflexivity. }
  split; [exact Hpanic|].
  apply (RecordSaveHandler_Handle_panic (externalsWith forgetful noCount)
           saveHandler request noResponse notesWorld _ _ Hpanic).
Defined.

(** A save and a delete addressed to the read-only database. *)
Lemma read_only_database_untouched_witness :
  let save := payload (SaveData false [noteC]) readOnlyDatabase [] false in
  let delete := payload deleteBatch readOnlyDatabase [] false in
  let world := mkTxState lockedStore None in
  IsReadOnly readOnlyDatabase = true /\
  (exists e,
     RecordSaveHandler_Handle externals saveHandler save noResponse world =
       (Done (setErr e noResponse), world) /\
     Code e ∈ [BadRequest; InvalidArgument; NotSupported]) /\
  (exists e,
     RecordDeleteHandler_Handle externals delete noResponse world =
       (setErr e noResponse, world) /\
     Code e ∈ [BadRequest; InvalidArgument; NotSupported]).
Proof.
  intros save delete world. split; [reflexivity|]. split.
  - apply (proj1 (read_only_database_untouched externals saveHandler save
                    noResponse world eq_refl)).
  - apply (proj2 (read_only_database_untouched externals saveHandler delete
                    noResponse world eq_refl)).
Defined.

(** A fetch of a stored and of a missing record. *)
Lemma RecordFetchHandler_Handle_results_witness :
  let request := payload (FetchData ["note/1"; "note/2"]) plainDatabase []
                   false in
  let world := mkTxState lockedStore None in
  DecodeFetch externals (PData request) = Some (formatID <$> [note1; note2]) /\
  exists results w',
    RecordFetchHandler_Handle externals request noResponse world =
      (setResult results noResponse, w') /\
    length results = 2.
Proof.
  intros request world. split; [reflexivity|].
  destruct (RecordFetchHandler_Handle_results externals request noResponse
              world [note1; note2] tt)
    as (results & worlds & w' & Hhandle & Hlen & _);
    [reflexivity|discriminate|repeat constructor|reflexivity|].
  exists results, w'. split; [exact Hhandle|exact Hlen].
Defined.

(** A fetch on a writable database and a delete on a read-only one,
    the second id of each being malformed. *)
Lemma malformed_id_fails_request_witness :
  let world := mkTxState lockedStore None in
  Forall (fun recordID => hasSlash (Type_ recordID) = false) [note1] /\
  hasSlash "note" = false /\
  RecordFetchHandler_Handle externals
    (payload (FetchData ["note/1"; "note"; "note/2"]) plainDatabase [] false)
    noResponse world =
    (setErr (NewInvalidArgument "invalid id format: note" ["ids"]) noResponse,
     world) /\
  RecordDeleteHandler_Handle externals
    (payload (DeleteData ["note/1"; "note"; "note/2"] [] true)
       readOnlyDatabase [] false)
    noResponse world =
    (setErr
       (NewInvalidArgument
          ("record: " ++ dquote ++ "_id" ++ dquote ++
           " should be of format '{type}/{id}', got " ++
           dquote ++ "note" ++ dquote)
          ["ids"])
       noResponse, world).
Proof.
  intros world.
  assert (Forall (fun recordID => hasSlash (Type_ recordID) = false) [note1])
    as Hfree.
  { repeat constructor. }
  split; [exact Hfree|]. split; [reflexivity|]. split.
  - apply (proj1 (malformed_id_fails_request externals
                    (payload (FetchData ["note/1"; "note"; "note/2"])
                       plainDatabase [] false)
                    noResponse world [note1] "note" ["note/2"] Hfree
                    eq_refl)).
    reflexivity.
  - apply (proj2 (malformed_id_fails_request externals
                    (payload (DeleteData ["note/1"; "note"; "note/2"] [] true)
                       readOnlyDatabase [] false)
                    noResponse world [note1] "note" ["note/2"] Hfree
                    eq_refl) true).
    reflexivity.
Defined.

(** The atomic save of [atomicRequest] on the store that holds the
    locked record. *)
Lemma atomicModifyFunc_error_iff_witness :
  let inner := recordutil_RecordSaveHandler externals in
  let txErr :=
    Some (error_sky (NewError UnexpectedError "atomic operation failed")) in
  AsTransactional (Db atomicRequest) = Some (snapshotTx noFault noFault) /\
  WithTransaction (snapshotTx noFault noFault)
    (fun resp w =>
       let '(e, resp', w') := inner atomicRequest resp w in
       (as_error e, resp', w'))
    freshResponse (mkTxState lockedStore None) =
    (txErr, refusedResponse, mkTxState lockedStore None) /\
  exists result,
    atomicModifyFunc externals plainRequest refusedResponse inner
      atomicRequest freshResponse (mkTxState lockedStore None) =
      (result, refusedResponse, mkTxState lockedStore None) /\
    (result = None <-> ErrMap refusedResponse = ∅ /\ txErr = None).
Proof.
  intros inner txErr.
  assert (WithTransaction (snapshotTx noFault noFault)
            (fun resp w =>
               let '(e, resp', w') := inner atomicRequest resp w in
               (as_error e, resp', w'))
            freshResponse (mkTxState lockedStore None) =
          (txErr, refusedResponse, mkTxState lockedStore None)) as Hrun.
  { vm_compute. reflexivity. }
  split; [reflexivity|]. split; [exact Hrun|].
  destruct (atomicModifyFunc_error_iff externals plainRequest refusedResponse
              inner atomicRequest freshResponse (mkTxState lockedStore None)
              (snapshotTx noFault noFault) txErr refusedResponse
              (mkTxState lockedStore None) eq_refl Hrun)
    as (result & Hresult & Hiff & _).
  exists result. split; [exact Hresult|exact Hiff].
Defined.

(** A query whose result info cannot be computed. *)
Lemma RecordQueryHandler_execute_answers_witness :
  let request := payload (QueryData secretQuery) plainDatabase [] false in
  let options := {| ViewAsUser := "alice"; BypassAccessControl := false |} in
  let answer :=
    (RecordQueryHandler_execute (externalsWith forgetful noCount) request
       (mkQueryPayload secretQuery) options noResponse
       (mkTxState lockedStore None)).1 in
  Err answer = Some (NewError UnexpectedError "count failed") /\
  exists output, Result answer = Some output /\ length output = 1.
Proof.
  intros request options answer.
  destruct (RecordQueryHandler_execute_answers
              (externalsWith forgetful noCount) request
              (mkQueryPayload secretQuery) options noResponse
              (mkTxState lockedStore None)) as (_ & _ & Hboth).
  destruct (Hboth {| Scanned := [recordA]; RowsErr := None |}
              (mkTxState lockedStore None) tt (errors_New "count failed")
              (mkTxState lockedStore None))
    as (Herr & output & Hresult & Hlen);
    [vm_compute; reflexivity|reflexivity|reflexivity|reflexivity|].
  split; [exact Herr|]. exists output. split; [exact Hresult|exact Hlen].
Defined.

(** A router without senders. *)
Lemma Len_Route_witness :
  push.Len (push.NewRouteSender : push.RouteSender unit nat) = 0 /\
  push.Len router = 1 /\
  push.Len (push.Route router "ios" (Some gcm)) = 1 /\
  push.RouteSender_Send (push.NewRouteSender : push.RouteSender unit nat)
    push.EmptyMapper phone tt =
    (Done (Some (errors_New "cannot find sender with type = ios")), tt).
Proof.
  destruct (route_properties.Len_Route push.NewRouteSender "ios" (Some apns))
    as (Hnew & Hfirst & Hempty).
  destruct (route_properties.Len_Route router "ios" (Some gcm))
    as (_ & Hsecond & _).
  split; [exact Hnew|]. split; [|split].
  - unfold router. rewrite Hfirst, Hnew. reflexivity.
  - rewrite Hsecond. unfold router at 1. simpl.
    unfold router. rewrite Hfirst, Hnew. reflexivity.
  - apply (Hempty Hnew).
Defined.

End instances.
